(** * The Bitcoin protocol validator of [scripts/validate_bitcoin_protocol.py]

    A shallow embedding of [BIP_STANDARDS], [validate_protocol] and [main],
    together with the fragment of Python's [str] and [re] they rely on.

    Text is a [string] of 8-bit code points (U+0000 .. U+00FF).  On that range
    [chr_lower] is exactly the lower-case mapping used both by [str.lower()]
    and by the regular-expression engine under [re.IGNORECASE]. *)

From Stdlib Require Import String Ascii List Bool Arith NArith Lia.
Import ListNotations.

Local Open Scope list_scope.
Local Open Scope string_scope.

Set Implicit Arguments.

(* ------------------------------------------------------------------------- *)
(** ** Python [str] *)

Module PyStr.

(** Lower-case mapping of one code point: [A-Z] and the Latin-1 capitals
    U+00C0 .. U+00DE (the multiplication sign U+00D7 apart) move up by 32. *)
Definition chr_lower (c : ascii) : ascii :=
  let n := N_of_ascii c in
  if ((65 <=? n) && (n <=? 90)
      || (192 <=? n) && (n <=? 222) && negb (n =? 215))%N
  then ascii_of_N (n + 32)
  else c.

(** [s.lower()] *)
Fixpoint lower (s : string) : string :=
  match s with
  | EmptyString => EmptyString
  | String c t => String (chr_lower c) (lower t)
  end.

(** [t.startswith(p)] *)
Fixpoint startswith (p t : string) : bool :=
  match p, t with
  | EmptyString, _ => true
  | String _ _, EmptyString => false
  | String a p', String b t' => Ascii.eqb a b && startswith p' t'
  end.

(** [needle in hay] *)
Fixpoint contains (needle hay : string) : bool :=
  startswith needle hay
  || match hay with
     | EmptyString => false
     | String _ t => contains needle t
     end.

(** Truth value of a string: only the empty string is falsy. *)
Definition truthy (s : string) : bool :=
  match s with EmptyString => false | String _ _ => true end.

(** Two texts that differ by letter case only. *)
Definition same_modulo_case (s t : string) : Prop := lower s = lower t.

(** [hay] has an occurrence of [needle] (a contiguous substring). *)
Definition occurs (needle hay : string) : Prop :=
  exists pre post, hay = pre ++ needle ++ post.

End PyStr.

(* ------------------------------------------------------------------------- *)
(** ** Exceptions and module state *)

(** The exceptions the modelled fragment can raise. *)
Inductive exn : Type :=
| KeyError (key : string)
| ReError (pattern : string)
| NotImplementedError (pattern : string)
| SystemExit (code : nat).

Inductive outcome (A : Type) : Type :=
| Ok (a : A)
| Raise (e : exn).
Arguments Ok {A} a.
Arguments Raise {A} e.

(** Python dictionaries keep insertion order: association lists. *)
Definition dict (V : Type) : Type := list (string * V).

Fixpoint dict_get {V : Type} (d : dict V) (k : string) : option V :=
  match d with
  | [] => None
  | (k', v) :: d' => if String.eqb k k' then Some v else dict_get d' k
  end.

(** [d[k]] *)
Definition getitem {V : Type} (d : dict V) (k : string) : outcome V :=
  match dict_get d k with
  | Some v => Ok v
  | None => Raise (KeyError k)
  end.

(** [d.items()] *)
Definition items {V : Type} (d : dict V) : list (string * V) := d.

(* ------------------------------------------------------------------------- *)
(** ** Python [re]: the fragment used by the registry *)

Module Re.

Import PyStr.

Inductive flags : Type := NoFlags | IGNORECASE.

Definition ignorecase (f : flags) : bool :=
  match f with IGNORECASE => true | NoFlags => false end.

(** *** Abstract syntax *)

Inductive class_item : Type :=
| CChar (c : ascii)
| CRange (lo hi : ascii).

Inductive atom : Type :=
| AChr (c : ascii)                                 (* a literal *)
| ADot                                             (* [.] *)
| ASet (negate : bool) (members : list class_item) (* [[...]] and [[^...]] *).

Inductive regex : Type :=
| Void
| Eps
| Atom (a : atom)
| Cat (r1 r2 : regex)
| Alt (r1 r2 : regex)
| Star (r : regex)
| Plus (r : regex)
| Opt (r : regex).

(** *** Parsing a pattern

    One pass over the pattern, driven by a small state machine.  Grouping,
    anchors, counted repetition, lazy and possessive quantifiers and the
    alphanumeric escapes are outside the fragment: they are reported as
    [NotImplementedError], never silently given another meaning. *)

Inductive perr : Type := Malformed | Unsupported.

Inductive pres (A : Type) : Type :=
| POk (a : A)
| PErr (e : perr).
Arguments POk {A} a.
Arguments PErr {A} e.

Inductive last_piece : Type := LNothing | LAtom | LQuantified.

Inductive pending : Type :=
| PNone
| PChar (c : ascii)     (* a member that may still open a range *)
| PDash (c : ascii)     (* [c-] read, upper end awaited *).

Inductive mode : Type :=
| MNormal (l : last_piece)
| MEscape
| MClassOpen
| MClass (neg fresh : bool) (members : list class_item) (p : pending)
| MClassEscape (neg : bool) (members : list class_item) (p : pending).

Record pstate : Type := mkP {
  alts : list regex;      (* finished alternatives, last first *)
  cur : list regex;       (* pieces of the current alternative, last first *)
  pmode : mode
}.

Definition is_ascii_alnum (c : ascii) : bool :=
  let n := N_of_ascii c in
  ((48 <=? n) && (n <=? 57) || (65 <=? n) && (n <=? 90)
   || (97 <=? n) && (n <=? 122))%N.

Definition ascii_leb (a b : ascii) : bool := (N_of_ascii a <=? N_of_ascii b)%N.

Fixpoint seq_of (pieces : list regex) : regex :=
  match pieces with
  | [] => Eps
  | [r] => r
  | r :: rest => Cat r (seq_of rest)
  end.

Fixpoint alt_of (first : regex) (others : list regex) : regex :=
  match others with
  | [] => first
  | r :: rest => Alt first (alt_of r rest)
  end.

Definition close_alt (st : pstate) : list regex :=
  seq_of (rev (cur st)) :: alts st.

Definition push (st : pstate) (r : regex) : pstate :=
  mkP (alts st) (r :: cur st) (MNormal LAtom).

(** A quantifier read after the piece described by [l].  After a piece that
    is already quantified, [*] is an error ("multiple repeat"), while [?]
    and [+] would make the first quantifier lazy or possessive: [again]
    says which. *)
Definition quantify (st : pstate) (l : last_piece) (q : regex -> regex)
           (again : perr) : pres pstate :=
  match l, cur st with
  | LAtom, r :: rest => POk (mkP (alts st) (q r :: rest) (MNormal LQuantified))
  | LQuantified, _ => PErr again
  | _, _ => PErr Malformed
  end.

Definition commit (members : list class_item) (p : pending) : list class_item :=
  match p with
  | PNone => members
  | PChar c => CChar c :: members
  | PDash c => CChar "-" :: CChar c :: members
  end.

(** A member [x] read inside a character set. *)
Definition take_member (st : pstate) (neg : bool) (members : list class_item)
           (p : pending) (x : ascii) : pres pstate :=
  match p with
  | PNone => POk (mkP (alts st) (cur st) (MClass neg false members (PChar x)))
  | PChar c =>
      POk (mkP (alts st) (cur st) (MClass neg false (CChar c :: members) (PChar x)))
  | PDash c =>
      if ascii_leb c x
      then POk (mkP (alts st) (cur st)
                    (MClass neg false (CRange c x :: members) PNone))
      else PErr Malformed
  end.

Definition in_class (st : pstate) (neg fresh : bool)
           (members : list class_item) (p : pending) (x : ascii) : pres pstate :=
  if Ascii.eqb x "]" && negb fresh then
    POk (push st (Atom (ASet neg (rev (commit members p)))))
  else if Ascii.eqb x "\" then
    POk (mkP (alts st) (cur st) (MClassEscape neg members p))
  else if Ascii.eqb x "-" then
    match p with
    | PChar c => POk (mkP (alts st) (cur st) (MClass neg false members (PDash c)))
    | _ => take_member st neg members p x
    end
  else take_member st neg members p x.

Definition step (st : pstate) (x : ascii) : pres pstate :=
  match pmode st with
  | MNormal l =>
      if Ascii.eqb x "\" then POk (mkP (alts st) (cur st) MEscape)
      else if Ascii.eqb x "[" then POk (mkP (alts st) (cur st) MClassOpen)
      else if Ascii.eqb x "|" then POk (mkP (close_alt st) [] (MNormal LNothing))
      else if Ascii.eqb x "*" then quantify st l Star Malformed
      else if Ascii.eqb x "+" then quantify st l Plus Unsupported
      else if Ascii.eqb x "?" then quantify st l Opt Unsupported
      else if Ascii.eqb x "." then POk (push st (Atom ADot))
      else if Ascii.eqb x "(" || Ascii.eqb x ")" || Ascii.eqb x "{"
              || Ascii.eqb x "^" || Ascii.eqb x "$" then PErr Unsupported
      else POk (push st (Atom (AChr x)))
  | MEscape =>
      if is_ascii_alnum x then PErr Unsupported
      else POk (push st (Atom (AChr x)))
  | MClassOpen =>
      if Ascii.eqb x "^"
      then POk (mkP (alts st) (cur st) (MClass true true [] PNone))
      else in_class st false true [] PNone x
  | MClass neg fresh members p => in_class st neg fresh members p x
  | MClassEscape neg members p =>
      if is_ascii_alnum x then PErr Unsupported
      else take_member st neg members p x
  end.

Fixpoint run (st : pstate) (pattern : string) : pres pstate :=
  match pattern with
  | EmptyString => POk st
  | String x rest =>
      match step st x with
      | POk st' => run st' rest
      | PErr e => PErr e
      end
  end.

Definition finish (st : pstate) : pres regex :=
  match pmode st with
  | MNormal _ =>
      match rev (close_alt st) with
      | [] => POk Eps
      | r :: rest => POk (alt_of r rest)
      end
  | _ => PErr Malformed
  end.

Definition parse (pattern : string) : pres regex :=
  match run (mkP [] [] (MNormal LNothing)) pattern with
  | POk st => finish st
  | PErr e => PErr e
  end.

(** [re.compile(pattern)] *)
Definition compile (pattern : string) : outcome regex :=
  match parse pattern with
  | POk r => Ok r
  | PErr Malformed => Raise (ReError pattern)
  | PErr Unsupported => Raise (NotImplementedError pattern)
  end.

(** *** Matching *)

(** Does the text character [ch] agree with the pattern character [c]?
    Under [IGNORECASE] both are compared after lower-casing. *)
Definition chr_agrees (ic : bool) (c ch : ascii) : bool :=
  if ic then Ascii.eqb (chr_lower ch) (chr_lower c) else Ascii.eqb ch c.

(** The code points [lo], [lo+1], ... ([count] of them). *)
Fixpoint code_points (lo : N) (count : nat) : list ascii :=
  match count with
  | O => []
  | S k => ascii_of_N lo :: code_points (N.succ lo) k
  end.

Definition range_members (lo hi : ascii) : list ascii :=
  code_points (N_of_ascii lo)
              (N.to_nat (N.succ (N_of_ascii hi) - N_of_ascii lo)).

(** Under [IGNORECASE] a range stands for the lower-cased set of its
    members and the text character is lower-cased before the test. *)
Definition item_accepts (ic : bool) (ch : ascii) (it : class_item) : bool :=
  match it with
  | CChar c => chr_agrees ic c ch
  | CRange lo hi =>
      if ic then existsb (fun c => Ascii.eqb (chr_lower ch) (chr_lower c))
                         (range_members lo hi)
      else ascii_leb lo ch && ascii_leb ch hi
  end.

Definition newline : ascii := ascii_of_nat 10.

Definition atom_accepts (ic : bool) (a : atom) (ch : ascii) : bool :=
  match a with
  | AChr c => chr_agrees ic c ch
  | ADot => negb (Ascii.eqb ch newline)
  | ASet negate members => xorb negate (existsb (item_accepts ic ch) members)
  end.

(** The language of a regular expression, as a relation. *)
Inductive matches (ic : bool) : regex -> string -> Prop :=
| M_eps : matches ic Eps EmptyString
| M_atom a ch :
    atom_accepts ic a ch = true -> matches ic (Atom a) (String ch EmptyString)
| M_cat r1 r2 s1 s2 :
    matches ic r1 s1 -> matches ic r2 s2 -> matches ic (Cat r1 r2) (s1 ++ s2)
| M_alt_l r1 r2 s : matches ic r1 s -> matches ic (Alt r1 r2) s
| M_alt_r r1 r2 s : matches ic r2 s -> matches ic (Alt r1 r2) s
| M_star_nil r : matches ic (Star r) EmptyString
| M_star_more r s1 s2 :
    matches ic r s1 -> matches ic (Star r) s2 -> matches ic (Star r) (s1 ++ s2)
| M_plus r s1 s2 :
    matches ic r s1 -> matches ic (Star r) s2 -> matches ic (Plus r) (s1 ++ s2)
| M_opt_none r : matches ic (Opt r) EmptyString
| M_opt_some r s : matches ic r s -> matches ic (Opt r) s.

(** Can the expression match the empty text? *)
Fixpoint nullable (r : regex) : bool :=
  match r with
  | Void => false
  | Eps => true
  | Atom _ => false
  | Cat r1 r2 => nullable r1 && nullable r2
  | Alt r1 r2 => nullable r1 || nullable r2
  | Star _ => true
  | Plus r1 => nullable r1
  | Opt _ => true
  end.

(** What is left to match once [ch] has been consumed. *)
Fixpoint deriv (ic : bool) (ch : ascii) (r : regex) : regex :=
  match r with
  | Void => Void
  | Eps => Void
  | Atom a => if atom_accepts ic a ch then Eps else Void
  | Cat r1 r2 =>
      if nullable r1
      then Alt (Cat (deriv ic ch r1) r2) (deriv ic ch r2)
      else Cat (deriv ic ch r1) r2
  | Alt r1 r2 => Alt (deriv ic ch r1) (deriv ic ch r2)
  | Star r1 => Cat (deriv ic ch r1) (Star r1)
  | Plus r1 => Cat (deriv ic ch r1) (Star r1)
  | Opt r1 => deriv ic ch r1
  end.

(** Does some prefix of [text] match?  ([pattern.match(text)] is not None.) *)
Fixpoint match_prefix (ic : bool) (r : regex) (text : string) : bool :=
  nullable r
  || match text with
     | EmptyString => false
     | String ch rest => match_prefix ic (deriv ic ch r) rest
     end.

(** Scan for the first position where a match starts. *)
Fixpoint search_from (ic : bool) (r : regex) (text : string) (pos : nat)
  : option nat :=
  if match_prefix ic r text then Some pos
  else match text with
       | EmptyString => None
       | String _ rest => search_from ic r rest (S pos)
       end.

(** [re.search(pattern, text, flags)]: [None] when nothing matches,
    otherwise the start of the leftmost match (a match object is truthy). *)
Definition search (pattern text : string) (f : flags) : outcome (option nat) :=
  match compile pattern with
  | Ok r => Ok (search_from (ignorecase f) r text 0)
  | Raise e => Raise e
  end.

(** [text] has a substring in the language of [pattern]. *)
Definition pattern_occurs (pattern text : string) (f : flags) : Prop :=
  exists r pre m post,
    compile pattern = Ok r /\ text = pre ++ m ++ post
    /\ matches (ignorecase f) r m.

End Re.

(* ------------------------------------------------------------------------- *)
(** ** The report *)

(** The dictionary built for one matched standard
    (keys [standard], [name], [compliant], [description], [warnings]). *)
Module Detail.
Record t : Type := mk {
  standard : string;
  name : string;
  compliant : bool;
  description : string;
  warnings : list string
}.

(** [detail["warnings"].append(w)] *)
Definition append_warning (d : t) (w : string) : t :=
  mk (standard d) (name d) (compliant d) (description d) (warnings d ++ [w])%list.
End Detail.

(** An element of [results["details"]]: a per-standard dictionary or the
    dictionary with the single key [error]. *)
Inductive entry : Type :=
| DetailEntry (d : Detail.t)
| ErrorEntry (error : string).

(** [detail.get("warnings", [])] *)
Definition get_warnings (e : entry) : list string :=
  match e with
  | DetailEntry d => Detail.warnings d
  | ErrorEntry _ => []
  end.

(** The dictionary [results]; the key [warning] is optional. *)
Module Report.
Record t : Type := mk {
  validation_performed : bool;
  timestamp : string;
  standards_checked : list string;
  compliant : bool;
  details : list entry;
  warning : option string
}.

(** [results["standards_checked"].append(bip_id)] *)
Definition append_checked (r : t) (bip_id : string) : t :=
  mk (validation_performed r) (timestamp r) (standards_checked r ++ [bip_id])%list
     (compliant r) (details r) (warning r).

(** [results["details"].append(e)] *)
Definition append_detail (r : t) (e : entry) : t :=
  mk (validation_performed r) (timestamp r) (standards_checked r)
     (compliant r) (details r ++ [e])%list (warning r).

(** [results["compliant"] = b] *)
Definition set_compliant (r : t) (b : bool) : t :=
  mk (validation_performed r) (timestamp r) (standards_checked r)
     b (details r) (warning r).

(** [results["warning"] = w] *)
Definition set_warning (r : t) (w : string) : t :=
  mk (validation_performed r) (timestamp r) (standards_checked r)
     (compliant r) (details r) (Some w).
End Report.

(* ------------------------------------------------------------------------- *)
(** ** The process: module globals, standard output, exceptions *)

Definition registry : Type := dict (dict string).

Record world : Type := mkWorld {
  g_BIP_STANDARDS : registry;   (* the module-level dictionary *)
  stdout : list string          (* what has been printed, oldest first *)
}.

(** A computation may read and write the world and may raise. *)
Definition M (A : Type) : Type := world -> outcome A * world.

Definition ret {A : Type} (a : A) : M A := fun w => (Ok a, w).

Definition raise {A : Type} (e : exn) : M A := fun w => (Raise e, w).

Definition bind {A B : Type} (m : M A) (k : A -> M B) : M B :=
  fun w =>
    match m w with
    | (Ok a, w') => k a w'
    | (Raise e, w') => (Raise e, w')
    end.

Definition lift {A : Type} (o : outcome A) : M A := fun w => (o, w).

Definition read_BIP_STANDARDS : M registry := fun w => (Ok (g_BIP_STANDARDS w), w).

Definition print (line : string) : M unit :=
  fun w => (Ok tt, mkWorld (g_BIP_STANDARDS w) (stdout w ++ [line])%list).

Notation "x <- m ;; k" := (bind m (fun x => k))
  (at level 61, m at next level, right associativity).
Notation "m ;;; k" := (bind m (fun _ => k))
  (at level 61, right associativity).

(* ------------------------------------------------------------------------- *)
(** ** [validate_bitcoin_protocol.py] *)

Definition BIP_STANDARDS : registry :=
  [ ("BIP-341",
     [ ("name", "Taproot");
       ("validation_regex", "tr\([A-Za-z0-9]+,\{[^}]+\}\)");
       ("description", "Taproot output spending conditions") ]);
    ("BIP-342",
     [ ("name", "Tapscript");
       ("validation_regex", "OP_CHECKSIG|OP_CHECKSIGVERIFY");
       ("description", "Tapscript validation rules") ]);
    ("BIP-174",
     [ ("name", "PSBT");
       ("validation_regex", "psbt:[0-9a-f]+");
       ("description", "Partially Signed Bitcoin Transaction") ]);
    ("BIP-370",
     [ ("name", "PSBT Version 2");
       ("validation_regex", "psbt:v2:[0-9a-f]+");
       ("description", "PSBT Version 2 format") ]) ].

(** The world once the module has been loaded. *)
Definition module_init : world := mkWorld BIP_STANDARDS [].

Definition silent_leaf_warning : string :=
  "Missing recommended SILENT_LEAF pattern for privacy-preserving Taproot scripts".

Definition unsigned_tx_warning : string := "PSBT should include unsigned_tx field".

Definition no_standard_error : string :=
  "No recognized Bitcoin protocol standards found in input".

Definition passed_with_warnings : string := "Protocol validation passed with warnings".

(** The body of the [for] loop, for one item of [BIP_STANDARDS.items()]. *)
Definition loop_body (input_text : string) (results : Report.t)
           (item : string * dict string) : M Report.t :=
  let (bip_id, bip_info) := item in
  pattern <- lift (getitem bip_info "validation_regex") ;;
  is_applicable <- lift (Re.search pattern input_text Re.IGNORECASE) ;;
  match is_applicable with
  | Some _ =>
      let results := Report.append_checked results bip_id in
      name <- lift (getitem bip_info "name") ;;
      description <- lift (getitem bip_info "description") ;;
      let validation_detail := Detail.mk bip_id name true description [] in
      let validation_detail :=
        if String.eqb bip_id "BIP-341"
           && negb (PyStr.contains "SILENT_LEAF" input_text)
        then Detail.append_warning validation_detail silent_leaf_warning
        else validation_detail in
      let validation_detail :=
        if String.eqb bip_id "BIP-174"
           && negb (PyStr.contains "unsigned_tx" (PyStr.lower input_text))
        then Detail.append_warning validation_detail unsigned_tx_warning
        else validation_detail in
      ret (Report.append_detail results (DetailEntry validation_detail))
  | None => ret results
  end.

Fixpoint for_each (input_text : string) (results : Report.t)
         (todo : list (string * dict string)) : M Report.t :=
  match todo with
  | [] => ret results
  | item :: rest =>
      results' <- loop_body input_text results item ;;
      for_each input_text results' rest
  end.

(** [any(warning for detail in details for warning in detail.get("warnings", []))] *)
Definition any_warning (details : list entry) : bool :=
  existsb PyStr.truthy (flat_map get_warnings details).

Definition validate_protocol (input_text : string) : M Report.t :=
  let results :=
    Report.mk true "2025-03-10T08:45:00Z" [] true [] None in
  standards <- read_BIP_STANDARDS ;;
  results <- for_each input_text results (items standards) ;;
  match Report.standards_checked results with
  | [] =>
      let results := Report.set_compliant results false in
      ret (Report.append_detail results (ErrorEntry no_standard_error))
  | _ :: _ =>
      if any_warning (Report.details results)
      then ret (Report.set_warning results passed_with_warnings)
      else ret results
  end.

Section Main.

(** [argparse] and [json] are library code: the command line is turned
    into [args.input] (or [SystemExit] is raised), a report into text.
    What [argparse] itself writes (the help text, a usage message) is not
    part of the model. *)
Variable parse_args : list string -> outcome string.
Variable json_dumps : Report.t -> string.

Definition main (argv : list string) : M unit :=
  input <- lift (parse_args argv) ;;
  results <- validate_protocol input ;;
  print (json_dumps results) ;;;
  if negb (Report.compliant results)
  then raise (SystemExit 1)
  else ret tt.

(** The exit status of the interpreter running the script: 0 when [main]
    returns, the code of [SystemExit], 1 for any other exception. *)
Definition exit_status (argv : list string) (w : world) : nat :=
  match fst (main argv w) with
  | Ok _ => 0
  | Raise (SystemExit code) => code
  | Raise _ => 1
  end.

End Main.

(* ------------------------------------------------------------------------- *)
(** ** Vocabulary of the statements *)

(** The registry is the one the module defines (it is never reassigned). *)
Definition loaded (w : world) : Prop := g_BIP_STANDARDS w = BIP_STANDARDS.

(** [pattern] is the detection pattern registered under [bip_id]. *)
Definition registered (bip_id pattern : string) : Prop :=
  exists bip_info,
    In (bip_id, bip_info) BIP_STANDARDS
    /\ dict_get bip_info "validation_regex" = Some pattern.

(** The text has a substring matching the pattern of [bip_id], letter case
    ignored. *)
Definition matches_standard (bip_id input_text : string) : Prop :=
  exists pattern,
    registered bip_id pattern
    /\ Re.pattern_occurs pattern input_text Re.IGNORECASE.

(** Some per-standard detail of the report carries a warning. *)
Definition detail_with_warnings (r : Report.t) : Prop :=
  exists d, In (DetailEntry d) (Report.details r) /\ Detail.warnings d <> [].

(** A registry item the loop body can process without raising. *)
Definition well_formed (item : string * dict string) : Prop :=
  exists pattern name description r,
    dict_get (snd item) "validation_regex" = Some pattern
    /\ dict_get (snd item) "name" = Some name
    /\ dict_get (snd item) "description" = Some description
    /\ Re.compile pattern = Ok r.

(** *** The loop in closed form (used by the proofs) *)

Definition field (bip_info : dict string) (key : string) : string :=
  match dict_get bip_info key with
  | Some v => v
  | None => EmptyString
  end.

Definition hits (input_text : string) (item : string * dict string) : bool :=
  match Re.search (field (snd item) "validation_regex") input_text Re.IGNORECASE with
  | Ok (Some _) => true
  | _ => false
  end.

Definition checks (input_text bip_id : string) : list string :=
  ((if String.eqb bip_id "BIP-341"
       && negb (PyStr.contains "SILENT_LEAF" input_text)
    then [silent_leaf_warning] else [])
   ++
   (if String.eqb bip_id "BIP-174"
       && negb (PyStr.contains "unsigned_tx" (PyStr.lower input_text))
    then [unsigned_tx_warning] else []))%list.

Definition detail_of (input_text : string) (item : string * dict string) : Detail.t :=
  Detail.mk (fst item) (field (snd item) "name") true
            (field (snd item) "description") (checks input_text (fst item)).

Definition matched (input_text : string) (reg : registry) : registry :=
  filter (hits input_text) reg.

Definition scanned (input_text : string) (results : Report.t) (reg : registry)
  : Report.t :=
  Report.mk (Report.validation_performed results) (Report.timestamp results)
            (Report.standards_checked results
             ++ map fst (matched input_text reg))%list
            (Report.compliant results)
            (Report.details results
             ++ map (fun item => DetailEntry (detail_of input_text item))
                    (matched input_text reg))%list
            (Report.warning results).

Definition expected_report (input_text : string) : Report.t :=
  let ms := matched input_text BIP_STANDARDS in
  let ds := map (fun item => DetailEntry (detail_of input_text item)) ms in
  match ms with
  | [] =>
      Report.mk true "2025-03-10T08:45:00Z" [] false
                [ErrorEntry no_standard_error] None
  | _ :: _ =>
      Report.mk true "2025-03-10T08:45:00Z" (map fst ms) true ds
                (if any_warning ds then Some passed_with_warnings else None)
  end.

(** Two calls in a row, the second in the world the first one left. *)
Definition call_twice (input_text : string) : M (Report.t * Report.t) :=
  first <- validate_protocol input_text ;;
  second <- validate_protocol input_text ;;
  ret (first, second).

(** *** Stand-ins for the library functions [main] is parameterised by *)

(** A command-line reader that accepts exactly [--input VALUE] and otherwise
    ends the process with status 2, as [argparse] does on a usage error. *)
Definition parse_input_option (argv : list string) : outcome string :=
  match argv with
  | [flag; value] =>
      if String.eqb flag "--input" then Ok value else Raise (SystemExit 2)
  | _ => Raise (SystemExit 2)
  end.

(** A one-line rendering of a report. *)
Definition render_checked (r : Report.t) : string :=
  String.concat "," (Report.standards_checked r).

(* ------------------------------------------------------------------------- *)
(** ** Vocabulary of the further properties *)

(** [s] is [l] with some elements dropped, the order kept. *)
Inductive subsequence {A : Type} : list A -> list A -> Prop :=
| sub_nil (l : list A) : subsequence [] l
| sub_take (x : A) (s l : list A) : subsequence s l -> subsequence (x :: s) (x :: l)
| sub_skip (x : A) (s l : list A) : subsequence s l -> subsequence s (x :: l).

(** [s.isascii()]: every code point is below 128. *)
Fixpoint isascii (s : string) : bool :=
  match s with
  | EmptyString => true
  | String c t => (N_of_ascii c <? 128)%N && isascii t
  end.

(** The registry gives the standard [bip_id] this name and description. *)
Definition described (bip_id name description : string) : Prop :=
  exists bip_info,
    dict_get BIP_STANDARDS bip_id = Some bip_info
    /\ dict_get bip_info "name" = Some name
    /\ dict_get bip_info "description" = Some description.

(** The least length of a text in the language of an expression (0 for the
    empty language). *)
Fixpoint min_len (r : Re.regex) : nat :=
  match r with
  | Re.Void => 0
  | Re.Eps => 0
  | Re.Atom _ => 1
  | Re.Cat r1 r2 => min_len r1 + min_len r2
  | Re.Alt r1 r2 => Nat.min (min_len r1) (min_len r2)
  | Re.Star _ => 0
  | Re.Plus r1 => min_len r1
  | Re.Opt _ => 0
  end.

(** Every registered pattern compiles to an expression whose matches have
    at least [n] characters. *)
Definition patterns_need (n : nat) : bool :=
  forallb (fun item : string * dict string =>
             match Re.compile (field (snd item) "validation_regex") with
             | Ok r => Nat.leb n (min_len r)
             | Raise _ => false
             end)
          BIP_STANDARDS.

(** The literal characters of [s], as a list of one-character expressions. *)
Fixpoint lits (s : string) : list Re.regex :=
  match s with
  | EmptyString => []
  | String c t => Re.Atom (Re.AChr c) :: lits t
  end.

(** The set [[0-9a-f]] of the two PSBT patterns. *)
Definition hex_set : Re.atom :=
  Re.ASet false [Re.CRange "0" "9"; Re.CRange "a" "f"].

(** A digit or one of the letters [a] .. [f]. *)
Definition is_lower_hex (c : ascii) : bool :=
  let n := N_of_ascii c in
  ((48 <=? n) && (n <=? 57) || (97 <=? n) && (n <=? 102))%N.

(** The lower-cased text contains [marker] directly followed by a
    hexadecimal digit. *)
Definition has_marker_and_hex (marker text : string) : Prop :=
  exists pre digit post,
    PyStr.lower text = pre ++ marker ++ String digit post
    /\ is_lower_hex digit = true.

(** The detection pattern of a registry item, when it has one, occurs in
    the text. *)
Definition item_occurs (input_text : string) (item : string * dict string) : Prop :=
  exists pattern,
    dict_get (snd item) "validation_regex" = Some pattern
    /\ Re.pattern_occurs pattern input_text Re.IGNORECASE.

(** *** Registry items used to exercise an extended registry *)

(** A fifth standard, complete. *)
Definition bech32m_item : string * dict string :=
  ("BIP-350", [("name", "Bech32m");
               ("validation_regex", "bc1p[0-9a-z]+");
               ("description", "Bech32m address format")]).

(** The same standard without its [name] and [description]. *)
Definition nameless_item : string * dict string :=
  ("BIP-350", [("validation_regex", "bc1p[0-9a-z]+")]).

(** An item without a detection pattern. *)
Definition patternless_item : string * dict string :=
  ("BIP-0", [("name", "Unfinished")]).

(* ------------------------------------------------------------------------- *)
(** ** [test_mcp_tools.py]: running the validator as a child process *)

(** What [subprocess.run(..., capture_output=True, text=True)] hands back. *)
Module Process.
Record t : Type := mk {
  returncode : Z;
  stdout : string;
  stderr : string
}.
End Process.

Definition line_feed : string := String Re.newline EmptyString.

(** The text a process leaves on its standard output: every printed line
    followed by a line feed. *)
Definition printed (lines : list string) : string :=
  String.concat EmptyString (map (fun line => line ++ line_feed) lines).

Section McpTools.

(** Starting the command and formatting a [CalledProcessError] are the
    operating system's and the library's business.  A command that cannot
    be started at all is not part of the model: [subprocess_run] describes
    commands that ran. *)
Variable subprocess_run : list string -> Process.t.
Variable str_of_error : list string -> Z -> string.

(** [run_command]: with [check=True] a non-zero return code raises
    [CalledProcessError], which is caught, reported and turned into
    [None]. *)
Definition run_command (command : list string) : M (option string) :=
  let result := subprocess_run command in
  if BinInt.Z.eqb (Process.returncode result) Z0
  then ret (Some (Process.stdout result))
  else
    print ("Error running command: "
           ++ str_of_error command (Process.returncode result)) ;;;
    print ("stderr: " ++ Process.stderr result) ;;;
    ret None.

End McpTools.

Section ValidatorProcess.

Variable parse_args : list string -> outcome string.
Variable json_dumps : Report.t -> string.
(** What the interpreter writes to standard error for an outcome. *)
Variable stderr_of : outcome unit -> string.

(** The validator script run as a fresh process with the given arguments
    (what [argparse] itself prints is not modelled, so this describes the
    child when the arguments are accepted). *)
Definition validator_process (argv : list string) : Process.t :=
  let run := main parse_args json_dumps argv module_init in
  Process.mk (BinInt.Z.of_nat (exit_status parse_args json_dumps argv module_init))
             (printed (stdout (snd run)))
             (stderr_of (fst run)).

End ValidatorProcess.

(** *** Stand-ins used to exercise [run_command] *)

(** A process runner that knows one program, the validator: the first two
    words of the command name the interpreter and the script. *)
Definition validator_only (command : list string) : Process.t :=
  validator_process parse_input_option render_checked
                    (fun _ => EmptyString) (skipn 2 command).

Definition plain_error_text (command : list string) (code : Z) : string :=
  "Command returned non-zero exit status".

(** [s * n] *)
Fixpoint str_repeat (s : string) (n : nat) : string :=
  match n with
  | O => EmptyString
  | S k => s ++ str_repeat s k
  end.

(** [s.center(width, fillchar)]: when padding is needed, the left margin is
    half of it, rounded up only if both the padding and the width are
    odd. *)
Definition center (s : string) (width : nat) (fillchar : string) : string :=
  let len := String.length s in
  if Nat.leb width len then s
  else
    let marg := width - len in
    let left := marg / 2 + (if Nat.odd marg && Nat.odd width then 1 else 0) in
    str_repeat fillchar left ++ s ++ str_repeat fillchar (marg - left).

(** [print_header] of [test_mcp_tools.py]. *)
Definition print_header (text : string) : M unit :=
  print (line_feed ++ str_repeat "=" 80) ;;;
  print (center (" " ++ text ++ " ") 80 "=") ;;;
  print (str_repeat "=" 80 ++ line_feed).

(* ------------------------------------------------------------------------- *)
(** ** [btc_security_check.py]: two decisions taken on plain strings *)

(** The status given to an installed package in
    [check_bitcoin_dependencies], once its version text is known.  Python
    compares strings character by character. *)
Definition dependency_status (package version : string) : string :=
  if String.eqb package "cryptography" && String.ltb version "44.0.2"
  then "VULNERABLE - Update to 44.0.2 or later"
  else if String.eqb package "pycryptodome" && String.ltb version "3.21.1"
  then "VULNERABLE - Update to 3.21.1 or later"
  else "OK".

(** The test that makes the two directory walks leave a directory out:
    [any(skip in root for skip in [...])]. *)
Definition skipped (root : string) : bool :=
  existsb (fun skip => PyStr.contains skip root)
          ["venv"; ".venv"; "env"; "node_modules"; ".git"; "test"].

(* ========================================================================= *)
(** * Properties *)

(* ------------------------------------------------------------------------- *)
(** ** Strings *)

Lemma str_app_empty_r (s : string) : s ++ EmptyString = s.
Proof. induction s as [|c s IH]; simpl; [reflexivity | now rewrite IH]. Qed.

Lemma str_app_assoc (a b c : string) : (a ++ b) ++ c = a ++ (b ++ c).
Proof. induction a as [|x a IH]; simpl; [reflexivity | now rewrite IH]. Qed.

Lemma str_app_cons_inv (s1 s2 s : string) (c : ascii) :
  s1 ++ s2 = String c s ->
  (s1 = EmptyString /\ s2 = String c s)
  \/ (exists s1', s1 = String c s1' /\ s = s1' ++ s2).
Proof.
  destruct s1 as [|x s1]; simpl; intros H.
  - left; split; [reflexivity | exact H].
  - right. injection H as -> <-. now exists s1.
Qed.

Lemma str_app_empty_inv (s1 s2 : string) :
  s1 ++ s2 = EmptyString -> s1 = EmptyString /\ s2 = EmptyString.
Proof. destruct s1; simpl; [auto | discriminate]. Qed.

Lemma lower_app (a b : string) :
  PyStr.lower (a ++ b) = PyStr.lower a ++ PyStr.lower b.
Proof. induction a as [|x a IH]; simpl; [reflexivity | now rewrite IH]. Qed.

Lemma startswith_iff (p t : string) :
  PyStr.startswith p t = true <-> exists post, t = p ++ post.
Proof.
  revert t; induction p as [|a p IH]; intros t; simpl.
  - split; [intros _; now exists t | reflexivity].
  - destruct t as [|b t].
    + split; [discriminate | intros [post H]; discriminate].
    + rewrite andb_true_iff, Ascii.eqb_eq, IH. split.
      * intros [-> [post ->]]. now exists post.
      * intros [post H]. injection H as -> ->. split; [reflexivity | now exists post].
Qed.

Lemma contains_iff (needle hay : string) :
  PyStr.contains needle hay = true <-> PyStr.occurs needle hay.
Proof.
  unfold PyStr.occurs. induction hay as [|h hay IH]; simpl.
  - rewrite orb_false_r, startswith_iff. split.
    + intros [post H]. now exists EmptyString, post.
    + intros [pre [post H]]. symmetry in H.
      apply str_app_empty_inv in H as [-> H]. now exists post.
  - rewrite orb_true_iff, startswith_iff, IH. split.
    + intros [[post H] | [pre [post H]]].
      * now exists EmptyString, post.
      * exists (String h pre), post. simpl. now rewrite H.
    + intros [[|x pre] [post H]]; simpl in H.
      * left. now exists post.
      * right. injection H as _ H. now exists pre, post.
Qed.

Lemma occurs_lower (needle hay : string) :
  PyStr.occurs needle hay -> PyStr.occurs (PyStr.lower needle) (PyStr.lower hay).
Proof.
  intros [pre [post ->]]. exists (PyStr.lower pre), (PyStr.lower post).
  now rewrite !lower_app.
Qed.

(* ------------------------------------------------------------------------- *)
(** ** The matcher agrees with the language of the expression *)

Section Matcher.

Import Re.
Variable ic : bool.

Lemma matches_empty_nullable (r : regex) (s : string) :
  matches ic r s -> s = EmptyString -> nullable r = true.
Proof.
  induction 1; intros E; simpl; try reflexivity; try discriminate.
  - apply str_app_empty_inv in E as [E1 E2]. now rewrite IHmatches1, IHmatches2.
  - now rewrite IHmatches.
  - rewrite IHmatches by assumption. apply orb_true_r.
  - apply str_app_empty_inv in E as [E1 E2]. auto.
Qed.

Lemma nullable_matches_empty (r : regex) :
  nullable r = true -> matches ic r EmptyString.
Proof.
  induction r; simpl; intros H; try discriminate.
  - constructor.
  - apply andb_true_iff in H as [H1 H2].
    change EmptyString with (EmptyString ++ EmptyString). constructor; auto.
  - apply orb_true_iff in H as [H | H];
      [apply M_alt_l | apply M_alt_r]; auto.
  - constructor.
  - change EmptyString with (EmptyString ++ EmptyString).
    apply M_plus; [auto | constructor].
  - constructor.
Qed.

Lemma nullable_iff (r : regex) :
  nullable r = true <-> matches ic r EmptyString.
Proof.
  split; [apply nullable_matches_empty |].
  intros H. now apply (matches_empty_nullable H).
Qed.

Lemma deriv_complete (r : regex) (s0 : string) :
  matches ic r s0 ->
  forall c s, s0 = String c s -> matches ic (deriv ic c r) s.
Proof.
  induction 1 as [ | a ch Ha | r1 r2 s1 s2 H1 IH1 H2 IH2 | r1 r2 s H IH
                 | r1 r2 s H IH | r | r s1 s2 H1 IH1 H2 IH2
                 | r s1 s2 H1 IH1 H2 IH2 | r | r s H IH ];
    intros c t E; simpl; try discriminate.
  - injection E as -> <-. rewrite Ha. constructor.
  - apply str_app_cons_inv in E as [[-> ->] | [s1' [-> ->]]].
    + rewrite (matches_empty_nullable H1 eq_refl). apply M_alt_r. now apply IH2.
    + assert (Hc : matches ic (Cat (deriv ic c r1) r2) (s1' ++ s2))
        by (constructor; [now apply IH1 | assumption]).
      destruct (nullable r1); [now apply M_alt_l | assumption].
  - apply M_alt_l. now apply IH.
  - apply M_alt_r. now apply IH.
  - apply str_app_cons_inv in E as [[-> ->] | [s1' [-> ->]]].
    + now apply IH2.
    + constructor; [now apply IH1 | assumption].
  - apply str_app_cons_inv in E as [[-> ->] | [s1' [-> ->]]].
    + now apply (IH2 c t).
    + constructor; [now apply IH1 | assumption].
  - now apply IH.
Qed.

Lemma deriv_sound (r : regex) :
  forall c s, matches ic (deriv ic c r) s -> matches ic r (String c s).
Proof.
  induction r as [ | | a | r1 IH1 r2 IH2 | r1 IH1 r2 IH2 | r IH | r IH | r IH ];
    intros c s H; simpl in H.
  - inversion H.
  - inversion H.
  - destruct (atom_accepts ic a c) eqn:Ha; inversion H; subst. now constructor.
  - assert (Hcat : forall t, matches ic (Cat (deriv ic c r1) r2) t ->
                             matches ic (Cat r1 r2) (String c t)).
    { intros t Ht. inversion Ht; subst.
      change (String c (s1 ++ s2)) with (String c s1 ++ s2).
      constructor; [now apply IH1 | assumption]. }
    destruct (nullable r1) eqn:N; [| now apply Hcat].
    inversion H; subst; [now apply Hcat |].
    change (String c s) with (EmptyString ++ String c s).
    constructor; [now apply nullable_matches_empty | now apply IH2].
  - inversion H; subst; [apply M_alt_l | apply M_alt_r]; auto.
  - inversion H; subst.
    change (String c (s1 ++ s2)) with (String c s1 ++ s2).
    apply M_star_more; [now apply IH | assumption].
  - inversion H; subst.
    change (String c (s1 ++ s2)) with (String c s1 ++ s2).
    apply M_plus; [now apply IH | assumption].
  - apply M_opt_some. now apply IH.
Qed.

Lemma match_prefix_iff (text : string) :
  forall r, match_prefix ic r text = true <->
            exists m post, text = m ++ post /\ matches ic r m.
Proof.
  induction text as [|ch rest IH]; intros r; simpl.
  - rewrite orb_false_r, nullable_iff. split.
    + intros H. now exists EmptyString, EmptyString.
    + intros [m [post [E H]]]. symmetry in E.
      apply str_app_empty_inv in E as [-> _]. exact H.
  - rewrite orb_true_iff, nullable_iff, IH. split.
    + intros [H | [m [post [-> H]]]].
      * now exists EmptyString, (String ch rest).
      * exists (String ch m), post. split; [reflexivity | now apply deriv_sound].
    + intros [[|x m] [post [E H]]]; simpl in E.
      * now left.
      * injection E as <- ->. right. exists m, post.
        split; [reflexivity | now apply (deriv_complete H)].
Qed.

Lemma search_from_nil (r : regex) (pos : nat) :
  search_from ic r EmptyString pos
  = if match_prefix ic r EmptyString then Some pos else None.
Proof. reflexivity. Qed.

Lemma search_from_cons (r : regex) (ch : ascii) (rest : string) (pos : nat) :
  search_from ic r (String ch rest) pos
  = if match_prefix ic r (String ch rest) then Some pos
    else search_from ic r rest (S pos).
Proof. reflexivity. Qed.

Lemma no_prefix_no_match (r : regex) (text m post : string) :
  match_prefix ic r text = false -> text = m ++ post -> ~ matches ic r m.
Proof.
  intros P E Hm.
  assert (match_prefix ic r text = true)
    by (apply match_prefix_iff; now exists m, post).
  congruence.
Qed.

Lemma search_from_none (r : regex) (text : string) :
  forall pos, search_from ic r text pos = None <->
              (forall pre m post, text = pre ++ m ++ post -> ~ matches ic r m).
Proof.
  induction text as [|ch rest IH]; intros pos.
  - rewrite search_from_nil.
    destruct (match_prefix ic r EmptyString) eqn:P.
    + split; [discriminate |]. intros H.
      apply match_prefix_iff in P as [m [post [E Hm]]].
      exfalso. now apply (H EmptyString m post).
    + split; [| reflexivity]. intros _ pre m post E.
      symmetry in E. apply str_app_empty_inv in E as [-> E]. simpl in E.
      eapply no_prefix_no_match; eauto.
  - rewrite search_from_cons.
    destruct (match_prefix ic r (String ch rest)) eqn:P.
    + split; [discriminate |]. intros H.
      apply match_prefix_iff in P as [m [post [E Hm]]].
      exfalso. now apply (H EmptyString m post).
    + rewrite IH. split.
      * intros H [|x pre] m post E; simpl in E.
        -- eapply no_prefix_no_match; eauto.
        -- injection E as _ E. now apply (H pre m post).
      * intros H pre m post E. apply (H (String ch pre) m post).
        simpl. now rewrite E.
Qed.

Lemma search_from_found (r : regex) (text : string) :
  forall pos start,
    search_from ic r text pos = Some start ->
    exists pre m post,
      text = pre ++ m ++ post /\ matches ic r m
      /\ start = pos + String.length pre.
Proof.
  induction text as [|ch rest IH]; intros pos start.
  - rewrite search_from_nil.
    destruct (match_prefix ic r EmptyString) eqn:P; [| discriminate].
    intros [= <-]. apply match_prefix_iff in P as [m [post [E Hm]]].
    exists EmptyString, m, post. simpl. repeat split; auto.
  - rewrite search_from_cons.
    destruct (match_prefix ic r (String ch rest)) eqn:P.
    + intros [= <-]. apply match_prefix_iff in P as [m [post [E Hm]]].
      exists EmptyString, m, post. simpl. repeat split; auto.
    + intros S. apply IH in S as [pre [m [post [E [Hm ->]]]]].
      exists (String ch pre), m, post. simpl. rewrite E.
      repeat split; auto.
Qed.

Lemma search_from_some (r : regex) (text : string) (pos : nat) :
  (exists start, search_from ic r text pos = Some start) <->
  (exists pre m post, text = pre ++ m ++ post /\ matches ic r m).
Proof.
  split.
  - intros [start S]. apply search_from_found in S as [pre [m [post [E [Hm _]]]]].
    now exists pre, m, post.
  - intros [pre [m [post [E Hm]]]].
    destruct (search_from ic r text pos) as [start|] eqn:S; [now exists start |].
    rewrite search_from_none in S. exfalso. now apply (S pre m post).
Qed.

End Matcher.

(* ------------------------------------------------------------------------- *)
(** ** The loop of [validate_protocol] *)

Lemma hits_iff (input_text : string) (item : string * dict string) (r : Re.regex) :
  Re.compile (field (snd item) "validation_regex") = Ok r ->
  hits input_text item = true <->
  Re.pattern_occurs (field (snd item) "validation_regex") input_text Re.IGNORECASE.
Proof.
  intros C. unfold hits, Re.search, Re.pattern_occurs. rewrite C. simpl.
  destruct (Re.search_from true r input_text 0) as [start|] eqn:S.
  - split; [intros _ | reflexivity].
    assert (H : exists n, Re.search_from true r input_text 0 = Some n)
      by now exists start.
    apply search_from_some in H as [pre [m [post [E Hm]]]].
    now exists r, pre, m, post.
  - split; [discriminate |]. intros [r' [pre [m [post [[= <-] [E Hm]]]]]].
    rewrite search_from_none in S. exfalso. now apply (S pre m post).
Qed.

Lemma loop_body_run (input_text : string) (results : Report.t)
      (item : string * dict string) (w : world) :
  well_formed item ->
  loop_body input_text results item w
  = (Ok (if hits input_text item
         then Report.append_detail
                (Report.append_checked results (fst item))
                (DetailEntry (detail_of input_text item))
         else results), w).
Proof.
  intros [pattern [name [description [r [Hp [Hn [Hd C]]]]]]].
  destruct item as [bip_id bip_info]. simpl in *.
  unfold loop_body, hits, detail_of, checks, field, bind, lift, ret, getitem.
  simpl. rewrite Hp, Hn, Hd. unfold Re.search. rewrite C.
  destruct (Re.search_from (Re.ignorecase Re.IGNORECASE) r input_text 0);
    [| reflexivity].
  destruct (String.eqb bip_id "BIP-341" && _);
    destruct (String.eqb bip_id "BIP-174" && _); reflexivity.
Qed.

Lemma for_each_run (input_text : string) (reg : registry) :
  Forall well_formed reg ->
  forall results w,
    for_each input_text results reg w = (Ok (scanned input_text results reg), w).
Proof.
  induction 1 as [|item reg Hitem Hreg IH]; intros results w.
  - unfold scanned, matched. simpl. rewrite !app_nil_r. now destruct results.
  - simpl. unfold bind. rewrite (loop_body_run _ _ _ Hitem), IH.
    unfold scanned, matched. simpl.
    destruct (hits input_text item); simpl; [| reflexivity].
    now rewrite <- !app_assoc.
Qed.

Lemma BIP_STANDARDS_well_formed : Forall well_formed BIP_STANDARDS.
Proof.
  unfold BIP_STANDARDS.
  repeat (apply Forall_cons;
          [ unfold well_formed; simpl; do 4 eexists;
            repeat split; try reflexivity; vm_compute; reflexivity | ]).
  apply Forall_nil.
Qed.

Lemma BIP_STANDARDS_ids_distinct : NoDup (map fst BIP_STANDARDS).
Proof.
  simpl. repeat constructor; simpl; intuition discriminate.
Qed.

(** The whole function, for any world whose registry is the module's. *)
Lemma validate_protocol_run (input_text : string) (w : world) :
  loaded w ->
  validate_protocol input_text w = (Ok (expected_report input_text), w).
Proof.
  intros L. unfold validate_protocol, bind, read_BIP_STANDARDS, items.
  rewrite L, (for_each_run _ BIP_STANDARDS_well_formed).
  unfold expected_report, scanned. simpl Report.standards_checked.
  simpl Report.details.
  destruct (matched input_text BIP_STANDARDS) as [|item ms]; simpl; [reflexivity |].
  unfold ret.
  destruct (any_warning _); reflexivity.
Qed.

(* ------------------------------------------------------------------------- *)
(** ** Letter case and [IGNORECASE] *)

Lemma chr_lower_newline (c : ascii) :
  PyStr.chr_lower c = Re.newline -> c = Re.newline.
Proof.
  destruct c as [[] [] [] [] [] [] [] []]; vm_compute; intros H;
    solve [reflexivity | discriminate H].
Qed.

Lemma atom_accepts_modulo_case (a : Re.atom) (ch ch' : ascii) :
  PyStr.chr_lower ch = PyStr.chr_lower ch' ->
  Re.atom_accepts true a ch = Re.atom_accepts true a ch'.
Proof.
  intros E. destruct a as [c | | negate members]; simpl.
  - unfold Re.chr_agrees. now rewrite E.
  - f_equal. destruct (Ascii.eqb_spec ch Re.newline) as [-> | N];
      destruct (Ascii.eqb_spec ch' Re.newline) as [-> | N']; try reflexivity.
    + symmetry in E. apply chr_lower_newline in E. contradiction.
    + apply chr_lower_newline in E. contradiction.
  - f_equal. induction members as [|it members IH]; simpl; [reflexivity |].
    rewrite IH. f_equal. destruct it as [c | lo hi]; simpl.
    + unfold Re.chr_agrees. now rewrite E.
    + now rewrite E.
Qed.

Lemma lower_empty_inv (s : string) :
  PyStr.lower s = EmptyString -> s = EmptyString.
Proof. destruct s; simpl; [reflexivity | discriminate]. Qed.

Lemma lower_app_inv (a b : string) :
  forall x, PyStr.lower x = a ++ b ->
            exists x1 x2, x = x1 ++ x2 /\ PyStr.lower x1 = a /\ PyStr.lower x2 = b.
Proof.
  induction a as [|c a IH]; intros x H; simpl in H.
  - now exists EmptyString, x.
  - destruct x as [|y x]; simpl in H; [discriminate |].
    injection H as Hc H. apply IH in H as [x1 [x2 [-> [H1 H2]]]].
    exists (String y x1), x2. simpl. now rewrite Hc, H1.
Qed.

(** On 8-bit text, where lower-casing works character by character, the
    language under [IGNORECASE] is closed under changes of letter case. *)
Lemma matches_modulo_case (r : Re.regex) (m : string) :
  Re.matches true r m ->
  forall m', PyStr.same_modulo_case m m' -> Re.matches true r m'.
Proof.
  unfold PyStr.same_modulo_case.
  induction 1 as [ | a ch Ha | r1 r2 s1 s2 H1 IH1 H2 IH2 | r1 r2 s H IH
                 | r1 r2 s H IH | r | r s1 s2 H1 IH1 H2 IH2
                 | r s1 s2 H1 IH1 H2 IH2 | r | r s H IH ];
    intros m' E.
  - symmetry in E. apply lower_empty_inv in E as ->. constructor.
  - destruct m' as [|ch' [|x m']]; simpl in E; try discriminate.
    injection E as E. constructor.
    now rewrite <- (atom_accepts_modulo_case a _ _ E).
  - rewrite lower_app in E. symmetry in E.
    apply lower_app_inv in E as [x1 [x2 [-> [E1 E2]]]].
    constructor; [apply IH1 | apply IH2]; congruence.
  - apply Re.M_alt_l. auto.
  - apply Re.M_alt_r. auto.
  - symmetry in E. apply lower_empty_inv in E as ->. constructor.
  - rewrite lower_app in E. symmetry in E.
    apply lower_app_inv in E as [x1 [x2 [-> [E1 E2]]]].
    apply Re.M_star_more; [apply IH1 | apply IH2]; congruence.
  - rewrite lower_app in E. symmetry in E.
    apply lower_app_inv in E as [x1 [x2 [-> [E1 E2]]]].
    apply Re.M_plus; [apply IH1 | apply IH2]; congruence.
  - symmetry in E. apply lower_empty_inv in E as ->. constructor.
  - apply Re.M_opt_some. auto.
Qed.

Lemma pattern_occurs_modulo_case (pattern text text' : string) :
  Re.pattern_occurs pattern text Re.IGNORECASE ->
  PyStr.same_modulo_case text text' ->
  Re.pattern_occurs pattern text' Re.IGNORECASE.
Proof.
  intros [r [pre [m [post [C [-> Hm]]]]]] E. unfold PyStr.same_modulo_case in E.
  rewrite !lower_app in E. symmetry in E.
  apply lower_app_inv in E as [pre' [rest [-> [Epre E]]]].
  apply lower_app_inv in E as [m' [post' [-> [Em Epost]]]].
  exists r, pre', m', post'. repeat split; [assumption |].
  apply (matches_modulo_case Hm). now unfold PyStr.same_modulo_case.
Qed.

(* ------------------------------------------------------------------------- *)
(** ** What the scan finds *)

Lemma registered_item (bip_id : string) (bip_info : dict string) :
  In (bip_id, bip_info) BIP_STANDARDS ->
  exists r, registered bip_id (field bip_info "validation_regex")
            /\ Re.compile (field bip_info "validation_regex") = Ok r.
Proof.
  intros Hin.
  destruct (proj1 (Forall_forall _ _) BIP_STANDARDS_well_formed _ Hin)
    as [pattern [name [description [r [Hp [_ [_ C]]]]]]].
  simpl in Hp. unfold field. rewrite Hp. exists r. split; [| exact C].
  now exists bip_info.
Qed.

Lemma matches_standard_iff (bip_id input_text : string) :
  matches_standard bip_id input_text <->
  exists bip_info,
    In (bip_id, bip_info) BIP_STANDARDS /\ hits input_text (bip_id, bip_info) = true.
Proof.
  split.
  - intros [pattern [[bip_info [Hin Hp]] Hocc]]. exists bip_info. split; [exact Hin |].
    destruct (registered_item Hin) as [r [_ C]].
    apply (hits_iff input_text (bip_id, bip_info) C). simpl.
    unfold field. now rewrite Hp.
  - intros [bip_info [Hin Hh]].
    destruct (registered_item Hin) as [r [R C]].
    exists (field bip_info "validation_regex"). split; [exact R |].
    now apply (hits_iff input_text (bip_id, bip_info) C).
Qed.

Lemma matched_in (input_text : string) (item : string * dict string) :
  In item (matched input_text BIP_STANDARDS) <->
  In item BIP_STANDARDS /\ hits input_text item = true.
Proof. apply filter_In. Qed.

Lemma matched_none (input_text : string) :
  (forall bip_id, ~ matches_standard bip_id input_text) ->
  matched input_text BIP_STANDARDS = [].
Proof.
  intros H. destruct (matched input_text BIP_STANDARDS) as [|[bip_id bip_info] ms] eqn:E;
    [reflexivity | exfalso].
  assert (Hin : In (bip_id, bip_info) (matched input_text BIP_STANDARDS))
    by (rewrite E; now left).
  apply matched_in in Hin. apply (H bip_id), matches_standard_iff.
  now exists bip_info.
Qed.

Lemma matched_ids_distinct (input_text : string) (reg : registry) :
  NoDup (map fst reg) -> NoDup (map fst (matched input_text reg)).
Proof.
  unfold matched. induction reg as [|item reg IH]; simpl; intros N; [constructor |].
  inversion N as [|x l Hnot Hrest]; subst.
  destruct (hits input_text item); simpl; [| auto].
  constructor; [| auto]. rewrite in_map_iff in *.
  intros [y [Hy Hin]]. apply Hnot. exists y. split; [exact Hy |].
  now apply filter_In in Hin as [Hin _].
Qed.

Lemma checks_truthy (input_text bip_id w : string) :
  In w (checks input_text bip_id) -> PyStr.truthy w = true.
Proof.
  unfold checks. intros H. apply in_app_or in H as [H | H];
    match type of H with In _ (if ?b then _ else _) => destruct b end;
    simpl in H; try contradiction; destruct H as [<- | []]; reflexivity.
Qed.

Lemma any_warning_details (input_text : string) (ms : registry) (d : Detail.t) :
  In (DetailEntry d) (map (fun item => DetailEntry (detail_of input_text item)) ms) ->
  Detail.warnings d <> [] ->
  any_warning (map (fun item => DetailEntry (detail_of input_text item)) ms) = true.
Proof.
  intros Hin Hw. unfold any_warning. apply existsb_exists.
  destruct (Detail.warnings d) as [|w ws] eqn:W; [contradiction |].
  exists w. split.
  - apply in_flat_map. exists (DetailEntry d). split; [exact Hin |].
    simpl. rewrite W. now left.
  - apply in_map_iff in Hin as [item [[= <-] _]]. simpl in W.
    apply (checks_truthy input_text (fst item)). rewrite W. now left.
Qed.

(* ========================================================================= *)
(** * The specification's claims *)

(** C1 (warning policy).  Whatever the input, if some per-standard detail of
    the returned report has a non-empty [warnings] list, then the report's
    [warning] key holds the fixed advisory string and [compliant] is still
    true. *)
Theorem warnings_set_advisory_keep_compliant (input_text : string) (w : world) :
  loaded w ->
  exists r,
    validate_protocol input_text w = (Ok r, w)
    /\ (detail_with_warnings r ->
        Report.warning r = Some "Protocol validation passed with warnings"
        /\ Report.compliant r = true).
Proof.
  intros L. exists (expected_report input_text).
  split; [now apply validate_protocol_run |].
  intros [d [Hin Hw]]. unfold expected_report in *.
  destruct (matched input_text BIP_STANDARDS) as [|item ms]; simpl in Hin.
  - destruct Hin as [Hin | []]. discriminate Hin.
  - cbn [Report.warning Report.compliant].
    change (DetailEntry (detail_of input_text item)
            :: map (fun it => DetailEntry (detail_of input_text it)) ms)
      with (map (fun it => DetailEntry (detail_of input_text it)) (item :: ms)) in *.
    now rewrite (any_warning_details input_text (item :: ms) d Hin Hw).
Qed.

Lemma warnings_set_advisory_keep_compliant_witness :
  loaded module_init
  /\ exists r,
      validate_protocol "tr(KEY,{OTHER})" module_init = (Ok r, module_init)
      /\ detail_with_warnings r
      /\ Report.warning r = Some "Protocol validation passed with warnings"
      /\ Report.compliant r = true.
Proof.
  split; [reflexivity |].
  destruct (warnings_set_advisory_keep_compliant "tr(KEY,{OTHER})" (w := module_init) eq_refl)
    as [r [E H]].
  exists r. split; [exact E |].
  assert (D : detail_with_warnings r).
  { rewrite validate_protocol_run in E by reflexivity. injection E as <-.
    unfold detail_with_warnings. eexists. split.
    - vm_compute. left. reflexivity.
    - vm_compute. discriminate. }
  split; [exact D | exact (H D)].
Defined.

(** C2 (unmatched input).  If the input matches none of the registered
    detection patterns, the report has [compliant = false], an empty
    [standards_checked] and exactly one entry in [details], the "no
    recognized standard" error. *)
Theorem unmatched_input_reported (input_text : string) (w : world) :
  loaded w ->
  (forall bip_id, ~ matches_standard bip_id input_text) ->
  exists r,
    validate_protocol input_text w = (Ok r, w)
    /\ Report.compliant r = false
    /\ Report.standards_checked r = []
    /\ Report.details r
       = [ErrorEntry "No recognized Bitcoin protocol standards found in input"].
Proof.
  intros L H. exists (expected_report input_text).
  split; [now apply validate_protocol_run |].
  unfold expected_report. rewrite (matched_none H). simpl. auto.
Qed.

Lemma unmatched_input_reported_witness :
  loaded module_init
  /\ (forall bip_id, ~ matches_standard bip_id "no markers here")
  /\ exists r,
      validate_protocol "no markers here" module_init = (Ok r, module_init)
      /\ Report.compliant r = false
      /\ Report.standards_checked r = []
      /\ Report.details r
         = [ErrorEntry "No recognized Bitcoin protocol standards found in input"].
Proof.
  assert (N : forall bip_id, ~ matches_standard bip_id "no markers here").
  { intros bip_id M. apply matches_standard_iff in M as [bip_info [Hin Hh]].
    simpl in Hin.
    repeat (destruct Hin as [Hin | Hin];
            [injection Hin as <- <-; vm_compute in Hh; discriminate Hh |]).
    exact Hin. }
  split; [reflexivity |]. split; [exact N |].
  exact (unmatched_input_reported (w := module_init) eq_refl N).
Defined.

(** C3 (detection).  If the input has a substring matching the detection
    pattern of a registered standard, letter case ignored as
    [re.IGNORECASE] does, then that standard's id occurs exactly once in
    [standards_checked]. *)
Theorem matched_standard_checked_once (input_text bip_id : string) (w : world) :
  loaded w ->
  matches_standard bip_id input_text ->
  exists r,
    validate_protocol input_text w = (Ok r, w)
    /\ count_occ string_dec (Report.standards_checked r) bip_id = 1.
Proof.
  intros L M. exists (expected_report input_text).
  split; [exact (validate_protocol_run input_text L) |].
  destruct (proj1 (matches_standard_iff bip_id input_text) M)
    as [bip_info [Hin Hh]].
  pose proof (proj2 (matched_in input_text (bip_id, bip_info)) (conj Hin Hh))
    as Hm.
  pose proof (in_map fst _ _ Hm) as Hid. cbn [fst] in Hid.
  pose proof (matched_ids_distinct input_text BIP_STANDARDS
                BIP_STANDARDS_ids_distinct) as N.
  unfold expected_report.
  destruct (matched input_text BIP_STANDARDS) as [|item ms]; [destruct Hm |].
  cbn [Report.standards_checked].
  exact (proj1 (NoDup_count_occ' string_dec _) N bip_id Hid).
Qed.

Lemma matched_standard_checked_once_witness :
  loaded module_init
  /\ matches_standard "BIP-341" "Pay to TR(key,{Silent_Leaf}) now"
  /\ exists r,
      validate_protocol "Pay to TR(key,{Silent_Leaf}) now" module_init
      = (Ok r, module_init)
      /\ count_occ string_dec (Report.standards_checked r) "BIP-341" = 1.
Proof.
  assert (M : matches_standard "BIP-341" "Pay to TR(key,{Silent_Leaf}) now").
  { apply (proj2 (matches_standard_iff "BIP-341" "Pay to TR(key,{Silent_Leaf}) now")).
    eexists. split.
    - unfold BIP_STANDARDS. left. reflexivity.
    - vm_compute. reflexivity. }
  split; [reflexivity |]. split; [exact M |].
  exact (@matched_standard_checked_once "Pay to TR(key,{Silent_Leaf}) now"
           "BIP-341" module_init eq_refl M).
Defined.

(** C4 (exit signalling).  Once the command line has been parsed, [main]
    prints the report and the process exits with status 1 exactly when the
    report's [compliant] is false, and with status 0 exactly when it is
    true. *)
Theorem exit_status_follows_compliant
        (parse_args : list string -> outcome string)
        (json_dumps : Report.t -> string)
        (argv : list string) (input : string) (w : world) :
  loaded w ->
  parse_args argv = Ok input ->
  exists r,
    validate_protocol input w = (Ok r, w)
    /\ snd (main parse_args json_dumps argv w)
       = mkWorld (g_BIP_STANDARDS w) (stdout w ++ [json_dumps r])%list
    /\ (exit_status parse_args json_dumps argv w <> 0 <-> Report.compliant r = false)
    /\ (exit_status parse_args json_dumps argv w = 1 <-> Report.compliant r = false)
    /\ (exit_status parse_args json_dumps argv w = 0 <-> Report.compliant r = true).
Proof.
  intros L P. exists (expected_report input).
  split; [now apply validate_protocol_run |].
  unfold exit_status, main, bind, lift, print, raise, ret.
  rewrite P, (validate_protocol_run input L).
  destruct (Report.compliant (expected_report input)); simpl;
    repeat split; intros; congruence.
Qed.

Lemma exit_status_follows_compliant_witness :
  loaded module_init
  /\ parse_input_option ["--input"; "no markers here"] = Ok "no markers here"
  /\ exit_status parse_input_option render_checked
                 ["--input"; "no markers here"] module_init = 1.
Proof.
  split; [reflexivity |]. split; [reflexivity |].
  destruct (exit_status_follows_compliant
              parse_input_option render_checked ["--input"; "no markers here"]
              (w := module_init) eq_refl eq_refl) as [r [E [_ [_ [H _]]]]].
  apply H. rewrite validate_protocol_run in E by reflexivity.
  injection E as <-. vm_compute. reflexivity.
Defined.

(** C5 (example 2).  For the input [tr(KEY,{OTHER})] the report lists
    BIP-341 in [standards_checked], the BIP-341 detail's [warnings] contains
    the missing-SILENT_LEAF message, [warning] is set and [compliant] is
    true. *)
Theorem taproot_without_silent_leaf (w : world) :
  loaded w ->
  exists r d,
    validate_protocol "tr(KEY,{OTHER})" w = (Ok r, w)
    /\ In "BIP-341" (Report.standards_checked r)
    /\ In (DetailEntry d) (Report.details r)
    /\ Detail.standard d = "BIP-341"
    /\ In "Missing recommended SILENT_LEAF pattern for privacy-preserving Taproot scripts"
          (Detail.warnings d)
    /\ Report.warning r = Some "Protocol validation passed with warnings"
    /\ Report.compliant r = true.
Proof.
  intros L. exists (expected_report "tr(KEY,{OTHER})").
  exists (Detail.mk "BIP-341" "Taproot" true "Taproot output spending conditions"
                    [silent_leaf_warning]).
  split; [now apply validate_protocol_run |].
  vm_compute. repeat split; auto.
Qed.

Lemma taproot_without_silent_leaf_witness :
  loaded module_init
  /\ exists r d,
      validate_protocol "tr(KEY,{OTHER})" module_init = (Ok r, module_init)
      /\ In "BIP-341" (Report.standards_checked r)
      /\ In (DetailEntry d) (Report.details r)
      /\ Detail.standard d = "BIP-341"
      /\ In "Missing recommended SILENT_LEAF pattern for privacy-preserving Taproot scripts"
            (Detail.warnings d)
      /\ Report.warning r = Some "Protocol validation passed with warnings"
      /\ Report.compliant r = true.
Proof.
  split; [reflexivity |].
  exact (taproot_without_silent_leaf (w := module_init) eq_refl).
Defined.

(** C6 (idempotence).  Two calls in a row with the same input return
    reports with the same [standards_checked] and the same [compliant]. *)
Theorem repeated_call_same_verdict (input_text : string) (w : world) :
  loaded w ->
  exists first second,
    call_twice input_text w = (Ok (first, second), w)
    /\ Report.standards_checked first = Report.standards_checked second
    /\ Report.compliant first = Report.compliant second.
Proof.
  intros L. exists (expected_report input_text), (expected_report input_text).
  unfold call_twice, bind, ret.
  rewrite !(validate_protocol_run input_text L). auto.
Qed.

Lemma repeated_call_same_verdict_witness :
  loaded module_init
  /\ exists first second,
      call_twice "psbt:0123456789abcdef" module_init
      = (Ok (first, second), module_init)
      /\ Report.standards_checked first = Report.standards_checked second
      /\ Report.compliant first = Report.compliant second.
Proof.
  split; [reflexivity |].
  exact (repeated_call_same_verdict "psbt:0123456789abcdef" (w := module_init) eq_refl).
Defined.

(** C7 (totality).  For every input, the empty one included,
    [validate_protocol] returns a report and raises nothing; the report has
    [validation_performed] set and the fixed timestamp; when nothing matched
    it carries [compliant = false] and the single error entry, otherwise
    [compliant = true] and one detail per checked standard. *)
Theorem validate_protocol_total (input_text : string) (w : world) :
  loaded w ->
  exists r,
    validate_protocol input_text w = (Ok r, w)
    /\ (forall e w', validate_protocol input_text w <> (Raise e, w'))
    /\ Report.validation_performed r = true
    /\ Report.timestamp r = "2025-03-10T08:45:00Z"
    /\ ((forall bip_id, ~ matches_standard bip_id input_text) ->
        Report.compliant r = false)
    /\ (Report.standards_checked r = [] ->
        Report.compliant r = false
        /\ Report.details r = [ErrorEntry no_standard_error]
        /\ Report.warning r = None)
    /\ (Report.standards_checked r <> [] ->
        Report.compliant r = true
        /\ List.length (Report.details r)
           = List.length (Report.standards_checked r)).
Proof.
  intros L. exists (expected_report input_text).
  rewrite (validate_protocol_run input_text L).
  split; [reflexivity |]. split; [congruence |].
  unfold expected_report.
  destruct (matched input_text BIP_STANDARDS) as [|item ms] eqn:E; simpl.
  - repeat split; congruence.
  - repeat split; try congruence.
    + intros H. rewrite (matched_none H) in E. discriminate E.
    + now rewrite !length_map.
Qed.

Lemma validate_protocol_total_witness :
  loaded module_init
  /\ exists r,
      validate_protocol EmptyString module_init = (Ok r, module_init)
      /\ Report.compliant r = false
      /\ Report.details r = [ErrorEntry no_standard_error].
Proof.
  split; [reflexivity |].
  destruct (validate_protocol_total EmptyString (w := module_init) eq_refl)
    as [r [E [_ [_ [_ [_ [H _]]]]]]].
  exists r. split; [exact E |].
  assert (S : Report.standards_checked r = []).
  { rewrite validate_protocol_run in E by reflexivity. injection E as <-.
    vm_compute. reflexivity. }
  destruct (H S) as [Hc [Hd _]]. split; [exact Hc | exact Hd].
Defined.

(** C8 (per-standard details).  In every returned report each per-standard
    detail has [compliant = true], and every standard the input matches has
    such a detail. *)
Theorem details_always_compliant (input_text : string) (w : world) :
  loaded w ->
  exists r,
    validate_protocol input_text w = (Ok r, w)
    /\ (forall d, In (DetailEntry d) (Report.details r) ->
                  Detail.compliant d = true)
    /\ (forall bip_id, matches_standard bip_id input_text ->
                       exists d, In (DetailEntry d) (Report.details r)
                                 /\ Detail.standard d = bip_id
                                 /\ Detail.compliant d = true).
Proof.
  intros L. exists (expected_report input_text).
  split; [now apply validate_protocol_run |].
  unfold expected_report. split.
  - intros d Hin.
    destruct (matched input_text BIP_STANDARDS) as [|item ms];
      cbn [Report.details] in Hin.
    + destruct Hin as [Hin | []]. discriminate Hin.
    + apply in_map_iff in Hin as [it [[= <-] _]]. reflexivity.
  - intros bip_id M. apply matches_standard_iff in M as [bip_info [Hin Hh]].
    assert (Hm : In (bip_id, bip_info) (matched input_text BIP_STANDARDS))
      by (apply matched_in; now split).
    destruct (matched input_text BIP_STANDARDS) as [|item ms]; [destruct Hm |].
    cbn [Report.details].
    exists (detail_of input_text (bip_id, bip_info)). split; [| now split].
    apply in_map_iff. now exists (bip_id, bip_info).
Qed.

Lemma details_always_compliant_witness :
  loaded module_init
  /\ exists r,
      validate_protocol "OP_CHECKSIG psbt:00" module_init = (Ok r, module_init)
      /\ List.length (Report.details r) = 2
      /\ (forall d, In (DetailEntry d) (Report.details r) ->
                    Detail.compliant d = true).
Proof.
  split; [reflexivity |].
  destruct (details_always_compliant "OP_CHECKSIG psbt:00" (w := module_init) eq_refl)
    as [r [E [H _]]].
  exists r. split; [exact E |]. split; [| exact H].
  rewrite validate_protocol_run in E by reflexivity. injection E as <-.
  vm_compute. reflexivity.
Defined.

(** C9 (timestamp).  Every report carries the constant timestamp
    [2025-03-10T08:45:00Z]; calls with the same input return the same
    report, timestamp included, whatever was printed in between and also
    when one call directly follows the other. *)
Theorem timestamp_fixed_reports_identical (input_text : string) (w1 w2 : world) :
  loaded w1 ->
  loaded w2 ->
  exists r,
    validate_protocol input_text w1 = (Ok r, w1)
    /\ validate_protocol input_text w2 = (Ok r, w2)
    /\ call_twice input_text w1 = (Ok (r, r), w1)
    /\ Report.timestamp r = "2025-03-10T08:45:00Z".
Proof.
  intros L1 L2. exists (expected_report input_text).
  unfold call_twice, bind, ret.
  rewrite !(validate_protocol_run input_text L1), (validate_protocol_run input_text L2).
  repeat split. unfold expected_report.
  destruct (matched input_text BIP_STANDARDS); reflexivity.
Qed.

Lemma timestamp_fixed_reports_identical_witness :
  loaded module_init
  /\ loaded (mkWorld BIP_STANDARDS ["earlier output"])
  /\ exists r,
      validate_protocol "tr(KEY,{OTHER})" module_init = (Ok r, module_init)
      /\ validate_protocol "tr(KEY,{OTHER})" (mkWorld BIP_STANDARDS ["earlier output"])
         = (Ok r, mkWorld BIP_STANDARDS ["earlier output"])
      /\ call_twice "tr(KEY,{OTHER})" module_init = (Ok (r, r), module_init)
      /\ Report.timestamp r = "2025-03-10T08:45:00Z".
Proof.
  split; [reflexivity |]. split; [reflexivity |].
  exact (timestamp_fixed_reports_identical "tr(KEY,{OTHER})"
           (w1 := module_init) (w2 := mkWorld BIP_STANDARDS ["earlier output"])
           eq_refl eq_refl).
Defined.

(** C10 (letter case in the heuristics).  The BIP-341 check looks for the
    exact upper-case text [SILENT_LEAF]: whenever that is absent the warning
    is appended, whatever other spelling is present.  The BIP-174 check
    lower-cases the input first: any spelling of [unsigned_tx] that differs
    by letter case only is accepted and no warning is appended. *)
Theorem heuristics_case_asymmetry (input_text : string) (w : world) :
  loaded w ->
  exists r,
    validate_protocol input_text w = (Ok r, w)
    /\ (matches_standard "BIP-341" input_text ->
        ~ PyStr.occurs "SILENT_LEAF" input_text ->
        exists d,
          In (DetailEntry d) (Report.details r)
          /\ Detail.standard d = "BIP-341"
          /\ Detail.warnings d
             = ["Missing recommended SILENT_LEAF pattern for privacy-preserving Taproot scripts"])
    /\ (matches_standard "BIP-174" input_text ->
        forall spelling,
          PyStr.same_modulo_case spelling "unsigned_tx" ->
          PyStr.occurs spelling input_text ->
          exists d,
            In (DetailEntry d) (Report.details r)
            /\ Detail.standard d = "BIP-174"
            /\ Detail.warnings d = []).
Proof.
  intros L. exists (expected_report input_text).
  split; [now apply validate_protocol_run |].
  assert (D : forall bip_id,
             matches_standard bip_id input_text ->
             exists d, In (DetailEntry d) (Report.details (expected_report input_text))
                       /\ Detail.standard d = bip_id
                       /\ Detail.warnings d = checks input_text bip_id).
  { intros bip_id M. apply matches_standard_iff in M as [bip_info [Hin Hh]].
    assert (Hm : In (bip_id, bip_info) (matched input_text BIP_STANDARDS))
      by (apply matched_in; now split).
    unfold expected_report.
    destruct (matched input_text BIP_STANDARDS) as [|item ms]; [destruct Hm |].
    cbn [Report.details].
    exists (detail_of input_text (bip_id, bip_info)). split; [| now split].
    apply in_map_iff. now exists (bip_id, bip_info). }
  split.
  - intros M Habsent. destruct (D _ M) as [d [Hin [Hs Hw]]].
    exists d. split; [exact Hin |]. split; [exact Hs |]. rewrite Hw.
    unfold checks.
    destruct (PyStr.contains "SILENT_LEAF" input_text) eqn:C.
    + apply contains_iff in C. contradiction.
    + reflexivity.
  - intros M spelling Hcase Hocc. destruct (D _ M) as [d [Hin [Hs Hw]]].
    exists d. split; [exact Hin |]. split; [exact Hs |]. rewrite Hw.
    unfold checks.
    assert (C : PyStr.contains "unsigned_tx" (PyStr.lower input_text) = true).
    { apply contains_iff. apply occurs_lower in Hocc.
      unfold PyStr.same_modulo_case in Hcase. now rewrite Hcase in Hocc. }
    rewrite C. reflexivity.
Qed.

Lemma heuristics_case_asymmetry_witness :
  loaded module_init
  /\ matches_standard "BIP-341" "tr(KEY,{silent_leaf}) psbt:00 UNSIGNED_TX"
  /\ PyStr.occurs "silent_leaf" "tr(KEY,{silent_leaf}) psbt:00 UNSIGNED_TX"
  /\ ~ PyStr.occurs "SILENT_LEAF" "tr(KEY,{silent_leaf}) psbt:00 UNSIGNED_TX"
  /\ matches_standard "BIP-174" "tr(KEY,{silent_leaf}) psbt:00 UNSIGNED_TX"
  /\ PyStr.same_modulo_case "UNSIGNED_TX" "unsigned_tx"
  /\ PyStr.occurs "UNSIGNED_TX" "tr(KEY,{silent_leaf}) psbt:00 UNSIGNED_TX"
  /\ exists r taproot psbt,
      validate_protocol "tr(KEY,{silent_leaf}) psbt:00 UNSIGNED_TX" module_init
      = (Ok r, module_init)
      /\ In (DetailEntry taproot) (Report.details r)
      /\ Detail.standard taproot = "BIP-341"
      /\ Detail.warnings taproot = [silent_leaf_warning]
      /\ In (DetailEntry psbt) (Report.details r)
      /\ Detail.standard psbt = "BIP-174"
      /\ Detail.warnings psbt = [].
Proof.
  assert (M1 : matches_standard "BIP-341" "tr(KEY,{silent_leaf}) psbt:00 UNSIGNED_TX").
  { apply matches_standard_iff. eexists. split.
    - simpl. left. reflexivity.
    - vm_compute. reflexivity. }
  assert (M2 : matches_standard "BIP-174" "tr(KEY,{silent_leaf}) psbt:00 UNSIGNED_TX").
  { apply matches_standard_iff. eexists. split.
    - simpl. right. right. left. reflexivity.
    - vm_compute. reflexivity. }
  assert (O1 : PyStr.occurs "silent_leaf" "tr(KEY,{silent_leaf}) psbt:00 UNSIGNED_TX")
    by (apply contains_iff; vm_compute; reflexivity).
  assert (O2 : ~ PyStr.occurs "SILENT_LEAF" "tr(KEY,{silent_leaf}) psbt:00 UNSIGNED_TX").
  { intros O. apply contains_iff in O. vm_compute in O. discriminate O. }
  assert (O3 : PyStr.occurs "UNSIGNED_TX" "tr(KEY,{silent_leaf}) psbt:00 UNSIGNED_TX")
    by (apply contains_iff; vm_compute; reflexivity).
  assert (E : PyStr.same_modulo_case "UNSIGNED_TX" "unsigned_tx")
    by (vm_compute; reflexivity).
  destruct (heuristics_case_asymmetry "tr(KEY,{silent_leaf}) psbt:00 UNSIGNED_TX"
              (w := module_init) eq_refl) as [r [Hr [H1 H2]]].
  destruct (H1 M1 O2) as [taproot [T1 [T2 T3]]].
  destruct (H2 M2 _ E O3) as [psbt [P1 [P2 P3]]].
  repeat (split; [assumption || reflexivity |]).
  exists r, taproot, psbt. repeat split; assumption.
Defined.

(* ========================================================================= *)
(** * Further properties of the validator *)

(* ------------------------------------------------------------------------- *)
(** ** Shape of the report *)

Lemma subsequence_matched (input_text : string) (reg : registry) :
  subsequence (map fst (matched input_text reg)) (map fst reg).
Proof.
  unfold matched. induction reg as [|item reg IH]; simpl; [constructor |].
  destruct (hits input_text item); simpl; now constructor.
Qed.

Lemma dict_get_in {V : Type} (d : dict V) (k : string) (v : V) :
  NoDup (map fst d) -> In (k, v) d -> dict_get d k = Some v.
Proof.
  induction d as [|[k' v'] d IH]; simpl; intros N Hin; [destruct Hin |].
  inversion N as [|x l Hnot Hrest]; subst.
  destruct Hin as [[= -> ->] | Hin].
  - now rewrite String.eqb_refl.
  - destruct (String.eqb_spec k k') as [-> | _]; [| auto].
    exfalso. apply Hnot, in_map_iff. now exists (k', v).
Qed.

Lemma matched_item_described (input_text : string) (item : string * dict string) :
  In item BIP_STANDARDS ->
  described (fst item) (Detail.name (detail_of input_text item))
            (Detail.description (detail_of input_text item)).
Proof.
  intros Hin.
  destruct (proj1 (Forall_forall _ _) BIP_STANDARDS_well_formed _ Hin)
    as [pattern [name [description [r [_ [Hn [Hd _]]]]]]].
  destruct item as [bip_id bip_info]. simpl in *.
  exists bip_info. unfold field. rewrite Hn, Hd. repeat split.
  apply dict_get_in; [exact BIP_STANDARDS_ids_distinct | exact Hin].
Qed.

Lemma any_warning_inv (input_text : string) (ms : registry) :
  any_warning (map (fun item => DetailEntry (detail_of input_text item)) ms) = true ->
  exists item, In item ms /\ checks input_text (fst item) <> [].
Proof.
  unfold any_warning. intros H. apply existsb_exists in H as [w [Hin _]].
  apply in_flat_map in Hin as [e [He Hw]].
  apply in_map_iff in He as [item [<- Hitem]]. simpl in Hw.
  exists item. split; [exact Hitem |]. intros E. rewrite E in Hw. destruct Hw.
Qed.

(** X1.  [standards_checked] holds exactly the ids of the standards whose
    pattern the input matches, in the order of the registry (not in the
    order of their occurrences in the text). *)
Theorem checked_exactly_the_matched (input_text : string) (w : world) :
  loaded w ->
  exists r,
    validate_protocol input_text w = (Ok r, w)
    /\ (forall bip_id,
          In bip_id (Report.standards_checked r)
          <-> matches_standard bip_id input_text)
    /\ subsequence (Report.standards_checked r)
                   ["BIP-341"; "BIP-342"; "BIP-174"; "BIP-370"].
Proof.
  intros L. exists (expected_report input_text).
  split; [now apply validate_protocol_run |].
  assert (S : Report.standards_checked (expected_report input_text)
              = map fst (matched input_text BIP_STANDARDS)).
  { unfold expected_report.
    destruct (matched input_text BIP_STANDARDS); reflexivity. }
  rewrite S. split.
  - intros bip_id. rewrite matches_standard_iff, in_map_iff. split.
    + intros [[k info] [E Hin]]. simpl in E. subst k.
      exists info. exact (proj1 (matched_in input_text (bip_id, info)) Hin).
    + intros [info [Hin Hh]]. exists (bip_id, info). split; [reflexivity |].
      exact (proj2 (matched_in input_text (bip_id, info)) (conj Hin Hh)).
  - exact (subsequence_matched input_text BIP_STANDARDS).
Qed.

Lemma checked_exactly_the_matched_witness :
  loaded module_init
  /\ exists r,
      validate_protocol "psbt:00 then tr(a,{b})" module_init = (Ok r, module_init)
      /\ Report.standards_checked r = ["BIP-341"; "BIP-174"]
      /\ (forall bip_id,
            In bip_id (Report.standards_checked r)
            <-> matches_standard bip_id "psbt:00 then tr(a,{b})").
Proof.
  split; [reflexivity |].
  destruct (checked_exactly_the_matched "psbt:00 then tr(a,{b})"
              (w := module_init) eq_refl) as [r [E [H _]]].
  exists r. split; [exact E |]. split; [| exact H].
  rewrite validate_protocol_run in E by reflexivity.
  assert (R : r = expected_report "psbt:00 then tr(a,{b})") by congruence.
  subst r. vm_compute. reflexivity.
Defined.

(** X2.  When at least one standard matched, [details] holds per-standard
    dictionaries only, one per entry of [standards_checked] and in the same
    order, each carrying the name and description the registry gives that
    standard. *)
Theorem details_mirror_checked (input_text : string) (w : world) :
  loaded w ->
  exists r,
    validate_protocol input_text w = (Ok r, w)
    /\ (Report.standards_checked r <> [] ->
        exists ds,
          Report.details r = map DetailEntry ds
          /\ map Detail.standard ds = Report.standards_checked r
          /\ forall d, In d ds ->
                       described (Detail.standard d) (Detail.name d)
                                 (Detail.description d)).
Proof.
  intros L. exists (expected_report input_text).
  split; [now apply validate_protocol_run |].
  unfold expected_report.
  destruct (matched input_text BIP_STANDARDS) as [|item ms] eqn:E;
    cbn [Report.standards_checked Report.details]; [congruence |].
  intros _. exists (map (detail_of input_text) (item :: ms)).
  rewrite !map_map. repeat split.
  intros d Hin. apply in_map_iff in Hin as [it [<- Hit]].
  rewrite <- E in Hit.
  exact (matched_item_described input_text
           (proj1 (proj1 (matched_in input_text it) Hit))).
Qed.

Lemma details_mirror_checked_witness :
  loaded module_init
  /\ exists r ds,
      validate_protocol "psbt:00 then tr(a,{b})" module_init = (Ok r, module_init)
      /\ Report.standards_checked r <> []
      /\ Report.details r = map DetailEntry ds
      /\ map Detail.standard ds = Report.standards_checked r.
Proof.
  split; [reflexivity |].
  destruct (details_mirror_checked "psbt:00 then tr(a,{b})"
              (w := module_init) eq_refl) as [r [E H]].
  assert (N : Report.standards_checked r <> []).
  { rewrite validate_protocol_run in E by reflexivity.
    assert (R : r = expected_report "psbt:00 then tr(a,{b})") by congruence.
    subst r. vm_compute. discriminate. }
  destruct (H N) as [ds [H1 [H2 _]]].
  exists r, ds. repeat split; assumption.
Defined.

(** X3.  [compliant] is true exactly when the input matches at least one
    registered pattern; the heuristics have no influence on it. *)
Theorem compliant_iff_some_match (input_text : string) (w : world) :
  loaded w ->
  exists r,
    validate_protocol input_text w = (Ok r, w)
    /\ (Report.compliant r = true
        <-> exists bip_id, matches_standard bip_id input_text).
Proof.
  intros L. exists (expected_report input_text).
  split; [now apply validate_protocol_run |].
  unfold expected_report.
  destruct (matched input_text BIP_STANDARDS) as [|[bip_id bip_info] ms] eqn:E;
    cbn [Report.compliant].
  - split; [discriminate |]. intros [bip_id M].
    apply matches_standard_iff in M as [bip_info [Hin Hh]].
    pose proof (proj2 (matched_in input_text (bip_id, bip_info)) (conj Hin Hh))
      as Hm.
    rewrite E in Hm. destruct Hm.
  - split; [intros _ | reflexivity]. exists bip_id.
    apply (proj2 (matches_standard_iff bip_id input_text)). exists bip_info.
    apply (proj1 (matched_in input_text (bip_id, bip_info))).
    rewrite E. left. reflexivity.
Qed.

Lemma compliant_iff_some_match_witness :
  loaded module_init
  /\ exists r,
      validate_protocol "op_checksig" module_init = (Ok r, module_init)
      /\ Report.compliant r = true
      /\ exists bip_id, matches_standard bip_id "op_checksig".
Proof.
  split; [reflexivity |].
  destruct (compliant_iff_some_match "op_checksig" (w := module_init) eq_refl)
    as [r [E H]].
  assert (C : Report.compliant r = true).
  { rewrite validate_protocol_run in E by reflexivity.
    assert (R : r = expected_report "op_checksig") by congruence.
    subst r. vm_compute. reflexivity. }
  exists r. split; [exact E |]. split; [exact C | exact (proj1 H C)].
Defined.

(** X4.  The key [warning] is either absent or holds the advisory string;
    it is present only on a compliant report in which some per-standard
    detail carries a warning. *)
Theorem warning_only_with_warned_detail (input_text : string) (w : world) :
  loaded w ->
  exists r,
    validate_protocol input_text w = (Ok r, w)
    /\ (Report.warning r = None
        \/ Report.warning r = Some "Protocol validation passed with warnings")
    /\ (Report.warning r <> None ->
        Report.compliant r = true /\ detail_with_warnings r).
Proof.
  intros L. exists (expected_report input_text).
  split; [now apply validate_protocol_run |].
  unfold expected_report, detail_with_warnings.
  destruct (matched input_text BIP_STANDARDS) as [|item ms];
    cbn [Report.warning Report.compliant Report.details].
  - split; [now left | congruence].
  - destruct (any_warning _) eqn:A.
    + split; [now right |]. intros _. split; [reflexivity |].
      apply (any_warning_inv input_text (item :: ms)) in A as [it [Hit Hc]].
      exists (detail_of input_text it). split; [| exact Hc].
      apply (in_map (fun i => DetailEntry (detail_of input_text i))) in Hit.
      exact Hit.
    + split; [now left | congruence].
Qed.

Lemma warning_only_with_warned_detail_witness :
  loaded module_init
  /\ exists r,
      validate_protocol "psbt:0123456789abcdef" module_init = (Ok r, module_init)
      /\ Report.warning r <> None
      /\ Report.compliant r = true
      /\ detail_with_warnings r.
Proof.
  split; [reflexivity |].
  destruct (warning_only_with_warned_detail "psbt:0123456789abcdef"
              (w := module_init) eq_refl) as [r [E [_ H]]].
  assert (N : Report.warning r <> None).
  { rewrite validate_protocol_run in E by reflexivity.
    assert (R : r = expected_report "psbt:0123456789abcdef") by congruence.
    subst r. vm_compute. discriminate. }
  exists r. split; [exact E |]. split; [exact N | exact (H N)].
Defined.

(* ------------------------------------------------------------------------- *)
(** ** The two heuristics *)

Lemma unsigned_tx_variant_iff (input_text : string) :
  PyStr.contains "unsigned_tx" (PyStr.lower input_text) = true
  <-> exists spelling,
        PyStr.same_modulo_case spelling "unsigned_tx"
        /\ PyStr.occurs spelling input_text.
Proof.
  rewrite contains_iff. unfold PyStr.same_modulo_case. split.
  - intros [pre [post E]].
    apply lower_app_inv in E as [x1 [rest [-> [E1 E]]]].
    apply lower_app_inv in E as [x2 [x3 [-> [E2 E3]]]].
    exists x2. split; [exact E2 | now exists x1, x3].
  - intros [spelling [E O]]. apply occurs_lower in O. now rewrite E in O.
Qed.

Lemma checks_taproot (input_text : string) :
  checks input_text "BIP-341"
  = if PyStr.contains "SILENT_LEAF" input_text then [] else [silent_leaf_warning].
Proof.
  unfold checks. destruct (PyStr.contains "SILENT_LEAF" input_text); reflexivity.
Qed.

Lemma checks_psbt (input_text : string) :
  checks input_text "BIP-174"
  = if PyStr.contains "unsigned_tx" (PyStr.lower input_text)
    then [] else [unsigned_tx_warning].
Proof.
  unfold checks.
  destruct (PyStr.contains "unsigned_tx" (PyStr.lower input_text)); reflexivity.
Qed.

Lemma checks_other (input_text bip_id : string) :
  bip_id <> "BIP-341" -> bip_id <> "BIP-174" -> checks input_text bip_id = [].
Proof.
  intros N1 N2. unfold checks.
  destruct (String.eqb_spec bip_id "BIP-341") as [E | _]; [contradiction |].
  destruct (String.eqb_spec bip_id "BIP-174") as [E | _]; [contradiction |].
  reflexivity.
Qed.

Lemma detail_in_report (input_text : string) (d : Detail.t) :
  In (DetailEntry d) (Report.details (expected_report input_text)) ->
  exists item,
    In item (matched input_text BIP_STANDARDS) /\ d = detail_of input_text item.
Proof.
  unfold expected_report.
  destruct (matched input_text BIP_STANDARDS) as [|item ms];
    cbn [Report.details]; intros Hin.
  - destruct Hin as [Hin | []]. discriminate Hin.
  - apply in_map_iff in Hin as [it [[= <-] Hit]]. now exists it.
Qed.

(** X5.  The heuristics, read as equivalences.  The BIP-341 detail has no
    warning exactly when the input contains [SILENT_LEAF] in upper case; the
    BIP-174 detail has no warning exactly when the input contains some
    spelling of [unsigned_tx] differing by letter case only.  Otherwise the
    detail carries the one message of its standard. *)
Theorem heuristics_exact (input_text : string) (w : world) :
  loaded w ->
  exists r,
    validate_protocol input_text w = (Ok r, w)
    /\ forall d,
        In (DetailEntry d) (Report.details r) ->
        (Detail.standard d = "BIP-341" ->
         (Detail.warnings d = [] <-> PyStr.occurs "SILENT_LEAF" input_text)
         /\ (Detail.warnings d = []
             \/ Detail.warnings d = [silent_leaf_warning]))
        /\ (Detail.standard d = "BIP-174" ->
            (Detail.warnings d = []
             <-> exists spelling,
                   PyStr.same_modulo_case spelling "unsigned_tx"
                   /\ PyStr.occurs spelling input_text)
            /\ (Detail.warnings d = []
                \/ Detail.warnings d = [unsigned_tx_warning])).
Proof.
  intros L. exists (expected_report input_text).
  split; [now apply validate_protocol_run |].
  intros d Hin. apply detail_in_report in Hin as [[bip_id bip_info] [_ ->]].
  unfold detail_of. cbn [Detail.standard Detail.warnings fst].
  split; intros ->.
  - rewrite checks_taproot, <- contains_iff.
    destruct (PyStr.contains "SILENT_LEAF" input_text).
    + split; [split; reflexivity | now left].
    + split; [split; discriminate | now right].
  - rewrite checks_psbt, <- unsigned_tx_variant_iff.
    destruct (PyStr.contains "unsigned_tx" (PyStr.lower input_text)).
    + split; [split; reflexivity | now left].
    + split; [split; discriminate | now right].
Qed.

Lemma heuristics_exact_witness :
  loaded module_init
  /\ exists r d,
      validate_protocol "tr(KEY,{SILENT_LEAF}) psbt:00" module_init
      = (Ok r, module_init)
      /\ In (DetailEntry d) (Report.details r)
      /\ Detail.standard d = "BIP-341"
      /\ Detail.warnings d = [].
Proof.
  split; [reflexivity |].
  destruct (heuristics_exact "tr(KEY,{SILENT_LEAF}) psbt:00"
              (w := module_init) eq_refl) as [r [E H]].
  pose (d := Detail.mk "BIP-341" "Taproot" true
                       "Taproot output spending conditions" []).
  assert (Hin : In (DetailEntry d) (Report.details r)).
  { rewrite validate_protocol_run in E by reflexivity.
    assert (R : r = expected_report "tr(KEY,{SILENT_LEAF}) psbt:00") by congruence.
    subst r. vm_compute. left. reflexivity. }
  exists r, d. split; [exact E |]. split; [exact Hin |].
  split; [reflexivity |].
  destruct (H d Hin) as [H341 _]. apply (proj1 (H341 eq_refl)).
  apply contains_iff. vm_compute. reflexivity.
Defined.

(** X6.  No detail has more than one warning, and only the BIP-341 and
    BIP-174 details can have one.  So an input that matches neither of these
    two standards never gets the top-level [warning]. *)
Theorem only_taproot_and_psbt_warn (input_text : string) (w : world) :
  loaded w ->
  exists r,
    validate_protocol input_text w = (Ok r, w)
    /\ (forall d,
          In (DetailEntry d) (Report.details r) ->
          List.length (Detail.warnings d) <= 1
          /\ (Detail.standard d <> "BIP-341" ->
              Detail.standard d <> "BIP-174" ->
              Detail.warnings d = []))
    /\ (~ matches_standard "BIP-341" input_text ->
        ~ matches_standard "BIP-174" input_text ->
        Report.warning r = None).
Proof.
  intros L. exists (expected_report input_text).
  split; [now apply validate_protocol_run |].
  assert (W : forall bip_id,
             List.length (checks input_text bip_id) <= 1
             /\ (bip_id <> "BIP-341" -> bip_id <> "BIP-174" ->
                 checks input_text bip_id = [])).
  { intros bip_id.
    destruct (String.eqb_spec bip_id "BIP-341") as [-> | N1].
    - rewrite checks_taproot. split; [| congruence].
      destruct (PyStr.contains _ _); simpl; lia.
    - destruct (String.eqb_spec bip_id "BIP-174") as [-> | N2].
      + rewrite checks_psbt. split; [| congruence].
        destruct (PyStr.contains _ _); simpl; lia.
      + rewrite (checks_other input_text N1 N2). split; [simpl; lia | reflexivity]. }
  split.
  - intros d Hin. apply detail_in_report in Hin as [item [_ ->]].
    exact (W (fst item)).
  - intros N1 N2. unfold expected_report.
    destruct (matched input_text BIP_STANDARDS) as [|item ms] eqn:E;
      cbn [Report.warning]; [reflexivity |].
    destruct (any_warning _) eqn:A; [exfalso | reflexivity].
    apply (any_warning_inv input_text (item :: ms)) in A as [[bip_id bip_info] [Hit Hc]].
    rewrite <- E in Hit.
    destruct (proj1 (matched_in input_text (bip_id, bip_info)) Hit) as [Hin Hh].
    pose proof (proj2 (matches_standard_iff bip_id input_text)
                      (ex_intro _ bip_info (conj Hin Hh))) as M.
    apply Hc. destruct (W bip_id) as [_ W2].
    apply W2; intros ->; [exact (N1 M) | exact (N2 M)].
Qed.

Lemma only_taproot_and_psbt_warn_witness :
  loaded module_init
  /\ ~ matches_standard "BIP-341" "OP_CHECKSIGVERIFY;psbt:v2:0f"
  /\ ~ matches_standard "BIP-174" "OP_CHECKSIGVERIFY;psbt:v2:0f"
  /\ exists r,
      validate_protocol "OP_CHECKSIGVERIFY;psbt:v2:0f" module_init
      = (Ok r, module_init)
      /\ Report.standards_checked r = ["BIP-342"; "BIP-370"]
      /\ Report.warning r = None.
Proof.
  assert (N : forall bip_id,
             bip_id = "BIP-341" \/ bip_id = "BIP-174" ->
             ~ matches_standard bip_id "OP_CHECKSIGVERIFY;psbt:v2:0f").
  { intros bip_id Hid M.
    apply (proj1 (matches_standard_iff _ _)) in M as [bip_info [Hin Hh]].
    unfold BIP_STANDARDS in Hin. cbn [In] in Hin.
    destruct Hin as [Hin | [Hin | [Hin | [Hin | []]]]];
      injection Hin as <- <-;
      try (vm_compute in Hh; discriminate Hh);
      destruct Hid as [Hid | Hid]; discriminate Hid. }
  split; [reflexivity |].
  split; [apply N; now left |]. split; [apply N; now right |].
  destruct (only_taproot_and_psbt_warn "OP_CHECKSIGVERIFY;psbt:v2:0f"
              (w := module_init) eq_refl) as [r [E [_ H]]].
  exists r. split; [exact E |]. split.
  - rewrite validate_protocol_run in E by reflexivity.
    assert (R : r = expected_report "OP_CHECKSIGVERIFY;psbt:v2:0f") by congruence.
    subst r. vm_compute. reflexivity.
  - apply H; apply N; [now left | now right].
Defined.

(* ------------------------------------------------------------------------- *)
(** ** Letter case and length of the input *)

Lemma hits_modulo_case (a b : string) (item : string * dict string) :
  In item BIP_STANDARDS ->
  PyStr.same_modulo_case a b ->
  hits a item = hits b item.
Proof.
  intros Hin E. destruct item as [bip_id bip_info].
  destruct (registered_item Hin) as [r [_ C]].
  assert (E' : PyStr.same_modulo_case b a) by (symmetry; exact E).
  pose proof (hits_iff a (bip_id, bip_info) C) as Ha.
  pose proof (hits_iff b (bip_id, bip_info) C) as Hb.
  destruct (hits a (bip_id, bip_info)) eqn:A;
    destruct (hits b (bip_id, bip_info)) eqn:B; try reflexivity.
  - symmetry. exact (proj2 Hb (pattern_occurs_modulo_case (proj1 Ha eq_refl) E)).
  - exact (proj2 Ha (pattern_occurs_modulo_case (proj1 Hb eq_refl) E')).
Qed.

Lemma matched_modulo_case (a b : string) :
  PyStr.same_modulo_case a b ->
  matched a BIP_STANDARDS = matched b BIP_STANDARDS.
Proof.
  intros E. unfold matched. apply filter_ext_in.
  intros item Hin. exact (hits_modulo_case Hin E).
Qed.

Lemma checks_modulo_case (a b bip_id : string) :
  PyStr.same_modulo_case a b ->
  bip_id <> "BIP-341" ->
  checks a bip_id = checks b bip_id.
Proof.
  unfold PyStr.same_modulo_case. intros E N. unfold checks. rewrite E.
  destruct (String.eqb_spec bip_id "BIP-341") as [-> | _]; [contradiction |].
  reflexivity.
Qed.

(** X7.  Two ASCII inputs that differ by letter case only get the same
    [standards_checked] and the same [compliant]; their reports can differ
    only in the warnings of the BIP-341 detail (and hence in the top-level
    [warning]): every other per-standard detail is the same in both. *)
Theorem verdict_ignores_letter_case (a b : string) (w : world) :
  loaded w ->
  isascii a = true ->
  isascii b = true ->
  PyStr.same_modulo_case a b ->
  exists ra rb,
    validate_protocol a w = (Ok ra, w)
    /\ validate_protocol b w = (Ok rb, w)
    /\ Report.standards_checked ra = Report.standards_checked rb
    /\ Report.compliant ra = Report.compliant rb
    /\ forall d,
        Detail.standard d <> "BIP-341" ->
        (In (DetailEntry d) (Report.details ra)
         <-> In (DetailEntry d) (Report.details rb)).
Proof.
  intros L _ _ E. exists (expected_report a), (expected_report b).
  rewrite !validate_protocol_run by exact L.
  split; [reflexivity |]. split; [reflexivity |].
  assert (D : forall x y d,
             PyStr.same_modulo_case x y ->
             Detail.standard d <> "BIP-341" ->
             In (DetailEntry d) (Report.details (expected_report x)) ->
             In (DetailEntry d) (Report.details (expected_report y))).
  { intros x y d Exy N Hin.
    apply detail_in_report in Hin as [item [Hit ->]].
    cbn [detail_of Detail.standard] in N.
    rewrite (matched_modulo_case Exy) in Hit.
    unfold expected_report.
    destruct (matched y BIP_STANDARDS) as [|it ms]; [destruct Hit |].
    cbn [Report.details]. unfold detail_of at 1.
    rewrite (checks_modulo_case Exy N).
    exact (in_map (fun i => DetailEntry (detail_of y i)) (it :: ms) item Hit). }
  unfold expected_report at 1 2 3 4. rewrite (matched_modulo_case E).
  destruct (matched b BIP_STANDARDS) as [|it ms];
    cbn [Report.standards_checked Report.compliant].
  - split; [reflexivity |]. split; [reflexivity |].
    intros d N. split; apply D; try exact N; [exact E | symmetry; exact E].
  - split; [reflexivity |]. split; [reflexivity |].
    intros d N. split; apply D; try exact N; [exact E | symmetry; exact E].
Qed.

Lemma verdict_ignores_letter_case_witness :
  loaded module_init
  /\ isascii "TR(k,{silent_leaf}) PSBT:0A" = true
  /\ isascii "tr(K,{SILENT_LEAF}) psbt:0a" = true
  /\ PyStr.same_modulo_case "TR(k,{silent_leaf}) PSBT:0A" "tr(K,{SILENT_LEAF}) psbt:0a"
  /\ exists ra rb,
      validate_protocol "TR(k,{silent_leaf}) PSBT:0A" module_init = (Ok ra, module_init)
      /\ validate_protocol "tr(K,{SILENT_LEAF}) psbt:0a" module_init = (Ok rb, module_init)
      /\ Report.standards_checked ra = Report.standards_checked rb
      /\ Report.compliant ra = Report.compliant rb
      /\ Report.details ra <> Report.details rb.
Proof.
  assert (A : isascii "TR(k,{silent_leaf}) PSBT:0A" = true)
    by (vm_compute; reflexivity).
  assert (B : isascii "tr(K,{SILENT_LEAF}) psbt:0a" = true)
    by (vm_compute; reflexivity).
  assert (E : PyStr.same_modulo_case "TR(k,{silent_leaf}) PSBT:0A"
                                     "tr(K,{SILENT_LEAF}) psbt:0a")
    by (vm_compute; reflexivity).
  split; [reflexivity |]. split; [exact A |]. split; [exact B |].
  split; [exact E |].
  destruct (@verdict_ignores_letter_case _ _ module_init eq_refl A B E)
    as [ra [rb [Ea [Eb [H1 [H2 _]]]]]].
  exists ra, rb. repeat (split; [assumption |]).
  rewrite validate_protocol_run in Ea, Eb by reflexivity.
  assert (Ra : ra = expected_report "TR(k,{silent_leaf}) PSBT:0A") by congruence.
  assert (Rb : rb = expected_report "tr(K,{SILENT_LEAF}) psbt:0a") by congruence.
  subst ra rb. vm_compute. discriminate.
Defined.

Lemma str_length_app (a b : string) :
  String.length (a ++ b) = String.length a + String.length b.
Proof. induction a as [|c a IH]; simpl; [reflexivity | now rewrite IH]. Qed.

Lemma min_len_matches (ic : bool) (r : Re.regex) (m : string) :
  Re.matches ic r m -> min_len r <= String.length m.
Proof.
  induction 1; simpl; rewrite ?str_length_app; simpl in *; lia.
Qed.

Lemma hit_needs_length (n : nat) (input_text : string)
      (item : string * dict string) :
  patterns_need n = true ->
  In item BIP_STANDARDS ->
  hits input_text item = true ->
  n <= String.length input_text.
Proof.
  intros P Hin Hh. unfold patterns_need in P.
  pose proof (proj1 (forallb_forall _ _) P item Hin) as Q. cbv beta in Q.
  destruct (Re.compile (field (snd item) "validation_regex")) as [r|e] eqn:C;
    [| discriminate Q].
  apply Nat.leb_le in Q.
  apply (proj1 (hits_iff input_text item C)) in Hh
    as [r' [pre [m [post [C' [-> Hm]]]]]].
  rewrite C in C'. injection C' as <-.
  apply min_len_matches in Hm. rewrite !str_length_app. lia.
Qed.

(** X8.  No input shorter than six characters is compliant: every
    registered pattern needs at least six characters (the shortest match is
    that of the BIP-174 pattern, such as [psbt:0]). *)
Theorem compliant_needs_six_characters (input_text : string) (w : world) :
  loaded w ->
  String.length input_text < 6 ->
  exists r,
    validate_protocol input_text w = (Ok r, w)
    /\ Report.compliant r = false
    /\ Report.standards_checked r = [].
Proof.
  intros L Short. exists (expected_report input_text).
  split; [now apply validate_protocol_run |].
  unfold expected_report.
  destruct (matched input_text BIP_STANDARDS) as [|item ms] eqn:E;
    [split; reflexivity | exfalso].
  assert (Hit : In item (matched input_text BIP_STANDARDS))
    by (rewrite E; left; reflexivity).
  destruct (proj1 (matched_in input_text item) Hit) as [Hin Hh].
  assert (P : patterns_need 6 = true) by (vm_compute; reflexivity).
  pose proof (@hit_needs_length 6 input_text item P Hin Hh). lia.
Qed.

Lemma compliant_needs_six_characters_witness :
  loaded module_init
  /\ String.length "psbt:" < 6
  /\ (exists r,
        validate_protocol "psbt:" module_init = (Ok r, module_init)
        /\ Report.compliant r = false
        /\ Report.standards_checked r = [])
  /\ Report.compliant (expected_report "psbt:0") = true.
Proof.
  assert (S : String.length "psbt:" < 6) by (vm_compute; lia).
  split; [reflexivity |]. split; [exact S |].
  split; [| vm_compute; reflexivity].
  exact (compliant_needs_six_characters "psbt:" (w := module_init) eq_refl S).
Defined.

(* ------------------------------------------------------------------------- *)
(** ** What the registered patterns detect, in terms of plain substrings *)

Lemma matches_seq_cons (ic : bool) (x : Re.regex) (l : list Re.regex) (m : string) :
  Re.matches ic (Re.seq_of (x :: l)) m
  <-> exists a b, m = a ++ b /\ Re.matches ic x a /\ Re.matches ic (Re.seq_of l) b.
Proof.
  destruct l as [|y l].
  - simpl. split.
    + intros H. exists m, EmptyString. rewrite str_app_empty_r.
      repeat split; [exact H | constructor].
    + intros [a [b [-> [Ha Hb]]]]. inversion Hb; subst.
      now rewrite str_app_empty_r.
  - change (Re.seq_of (x :: y :: l)) with (Re.Cat x (Re.seq_of (y :: l))). split.
    + intros H. inversion H; subst. now exists s1, s2.
    + intros [a [b [-> [Ha Hb]]]]. now constructor.
Qed.

Lemma matches_alt_inv (ic : bool) (r1 r2 : Re.regex) (m : string) :
  Re.matches ic (Re.Alt r1 r2) m -> Re.matches ic r1 m \/ Re.matches ic r2 m.
Proof. intros H. inversion H; subst; [now left | now right]. Qed.

Lemma matches_literal_chr (c : ascii) (m : string) :
  Re.matches true (Re.Atom (Re.AChr c)) m
  <-> exists ch, m = String ch EmptyString
                 /\ PyStr.chr_lower ch = PyStr.chr_lower c.
Proof.
  split.
  - intros H. inversion H as [ | a ch Ha | | | | | | | | ]; subst.
    exists ch. split; [reflexivity |].
    simpl in Ha. unfold Re.chr_agrees in Ha. now apply Ascii.eqb_eq.
  - intros [ch [-> E]]. constructor. simpl. unfold Re.chr_agrees.
    now apply Ascii.eqb_eq.
Qed.

(** A run of literals followed by [tail]: the text splits into a part equal
    to the literals up to letter case and a part matching [tail]. *)
Lemma matches_lits_then (s : string) (tail : list Re.regex) :
  forall m,
    Re.matches true (Re.seq_of (lits s ++ tail)) m
    <-> exists m1 m2,
          m = m1 ++ m2
          /\ PyStr.lower m1 = PyStr.lower s
          /\ Re.matches true (Re.seq_of tail) m2.
Proof.
  induction s as [|c s IH]; intros m.
  - simpl. split.
    + intros H. now exists EmptyString, m.
    + intros [m1 [m2 [-> [E H]]]]. apply lower_empty_inv in E as ->. exact H.
  - change (lits (String c s) ++ tail)%list
      with (Re.Atom (Re.AChr c) :: (lits s ++ tail))%list.
    rewrite matches_seq_cons. split.
    + intros [a [b [-> [Ha Hb]]]].
      apply matches_literal_chr in Ha as [ch [-> Ec]].
      apply IH in Hb as [m1 [m2 [-> [E H]]]].
      exists (String ch m1), m2. simpl. rewrite Ec, E. now repeat split.
    + intros [m1 [m2 [-> [E H]]]].
      destruct m1 as [|ch m1]; simpl in E; [discriminate |].
      injection E as Ec E.
      exists (String ch EmptyString), (m1 ++ m2). repeat split.
      * apply matches_literal_chr. now exists ch.
      * apply IH. now exists m1, m2.
Qed.

Lemma matches_lits (s m : string) :
  Re.matches true (Re.seq_of (lits s)) m <-> PyStr.lower m = PyStr.lower s.
Proof.
  rewrite <- (app_nil_r (lits s)), matches_lits_then. split.
  - intros [m1 [m2 [-> [E H]]]]. inversion H; subst. now rewrite str_app_empty_r.
  - intros E. exists m, EmptyString. rewrite str_app_empty_r.
    repeat split; [exact E | constructor].
Qed.

Lemma hex_set_accepts (ch : ascii) :
  Re.atom_accepts true hex_set ch = is_lower_hex (PyStr.chr_lower ch).
Proof.
  destruct ch as [[] [] [] [] [] [] [] []]; vm_compute; reflexivity.
Qed.

Lemma matches_plus_atom_head (a : Re.atom) (m : string) :
  Re.matches true (Re.Plus (Re.Atom a)) m ->
  exists ch rest, m = String ch rest /\ Re.atom_accepts true a ch = true.
Proof.
  intros H. inversion H as [ | | | | | | | r s1 s2 H1 H2 | | ]; subst.
  inversion H1 as [ | a' ch Ha | | | | | | | | ]; subst.
  now exists ch, s2.
Qed.

Lemma pattern_occurs_compiled (pattern text : string) (r : Re.regex) :
  Re.compile pattern = Ok r ->
  Re.pattern_occurs pattern text Re.IGNORECASE
  <-> exists pre m post, text = pre ++ m ++ post /\ Re.matches true r m.
Proof.
  intros C. unfold Re.pattern_occurs. split.
  - intros [r' [pre [m [post [C' [E H]]]]]]. rewrite C in C'.
    injection C' as <-. now exists pre, m, post.
  - intros [pre [m [post [E H]]]]. now exists r, pre, m, post.
Qed.

Lemma matches_standard_pattern (bip_id pattern input_text : string)
      (bip_info : dict string) :
  In (bip_id, bip_info) BIP_STANDARDS ->
  dict_get bip_info "validation_regex" = Some pattern ->
  matches_standard bip_id input_text
  <-> Re.pattern_occurs pattern input_text Re.IGNORECASE.
Proof.
  intros Hin Hp. split.
  - intros [pattern' [[bip_info' [Hin' Hp']] Hocc]].
    pose proof (@dict_get_in _ BIP_STANDARDS bip_id bip_info
                  BIP_STANDARDS_ids_distinct Hin) as G.
    pose proof (@dict_get_in _ BIP_STANDARDS bip_id bip_info'
                  BIP_STANDARDS_ids_distinct Hin') as G'.
    rewrite G in G'. injection G' as <-. rewrite Hp in Hp'.
    injection Hp' as <-. exact Hocc.
  - intros Hocc. exists pattern. split; [| exact Hocc]. now exists bip_info.
Qed.

Lemma checked_iff (input_text bip_id : string) :
  In bip_id (Report.standards_checked (expected_report input_text))
  <-> matches_standard bip_id input_text.
Proof.
  assert (S : Report.standards_checked (expected_report input_text)
              = map fst (matched input_text BIP_STANDARDS)).
  { unfold expected_report.
    destruct (matched input_text BIP_STANDARDS); reflexivity. }
  rewrite S, matches_standard_iff, in_map_iff. split.
  - intros [[k info] [E Hin]]. simpl in E. subst k.
    exists info. exact (proj1 (matched_in input_text (bip_id, info)) Hin).
  - intros [info [Hin Hh]]. exists (bip_id, info). split; [reflexivity |].
    exact (proj2 (matched_in input_text (bip_id, info)) (conj Hin Hh)).
Qed.

(** Occurrence of a marker followed by one or more hexadecimal digits. *)
Lemma marker_hex_occurs (marker text : string) :
  (exists pre m post,
      text = pre ++ m ++ post
      /\ Re.matches true
           (Re.seq_of (lits marker ++ [Re.Plus (Re.Atom hex_set)])) m)
  <-> has_marker_and_hex (PyStr.lower marker) text.
Proof.
  unfold has_marker_and_hex. split.
  - intros [pre [m [post [-> H]]]].
    apply matches_lits_then in H as [m1 [m2 [-> [E H]]]].
    change (Re.seq_of [Re.Plus (Re.Atom hex_set)])
      with (Re.Plus (Re.Atom hex_set)) in H.
    apply matches_plus_atom_head in H as [ch [rest [-> Hc]]].
    rewrite hex_set_accepts in Hc.
    exists (PyStr.lower pre), (PyStr.chr_lower ch),
           (PyStr.lower rest ++ PyStr.lower post).
    split; [| exact Hc].
    rewrite !lower_app, E. cbn [PyStr.lower]. rewrite !str_app_assoc.
    reflexivity.
  - intros [pre [digit [post [E Hd]]]].
    apply lower_app_inv in E as [x1 [rest [-> [E1 E]]]].
    apply lower_app_inv in E as [x2 [x3 [-> [E2 E3]]]].
    destruct x3 as [|ch x4]; simpl in E3; [discriminate |].
    injection E3 as Ec E4.
    exists x1, (x2 ++ String ch EmptyString), x4. split.
    + rewrite !str_app_assoc. reflexivity.
    + apply matches_lits_then. exists x2, (String ch EmptyString).
      repeat split; [exact E2 |].
      change (Re.seq_of [Re.Plus (Re.Atom hex_set)])
        with (Re.Plus (Re.Atom hex_set)).
      change (String ch EmptyString)
        with (String ch EmptyString ++ EmptyString).
      apply Re.M_plus; [| constructor]. constructor.
      rewrite hex_set_accepts, Ec. exact Hd.
Qed.

(** X9.  The second alternative of the BIP-342 pattern is redundant:
    BIP-342 is reported exactly when the input has a substring matching the
    single literal [OP_CHECKSIG], letter case ignored.  It is reported
    whenever the lower-cased input contains [op_checksig], and for an ASCII
    input only then. *)
Theorem tapscript_detected_iff_op_checksig (input_text : string) (w : world) :
  loaded w ->
  exists r,
    validate_protocol input_text w = (Ok r, w)
    /\ (In "BIP-342" (Report.standards_checked r)
        <-> Re.pattern_occurs "OP_CHECKSIG" input_text Re.IGNORECASE)
    /\ (PyStr.contains "op_checksig" (PyStr.lower input_text) = true ->
        In "BIP-342" (Report.standards_checked r))
    /\ (isascii input_text = true ->
        In "BIP-342" (Report.standards_checked r) ->
        PyStr.contains "op_checksig" (PyStr.lower input_text) = true).
Proof.
  intros L. exists (expected_report input_text).
  split; [now apply validate_protocol_run |].
  assert (K1 : In "BIP-342" (Report.standards_checked (expected_report input_text))
               <-> PyStr.contains "op_checksig" (PyStr.lower input_text) = true).
  { rewrite checked_iff.
    rewrite (@matches_standard_pattern
               "BIP-342" "OP_CHECKSIG|OP_CHECKSIGVERIFY" input_text
               [("name", "Tapscript");
                ("validation_regex", "OP_CHECKSIG|OP_CHECKSIGVERIFY");
                ("description", "Tapscript validation rules")]);
      [| unfold BIP_STANDARDS; right; left; reflexivity | reflexivity].
    assert (C : Re.compile "OP_CHECKSIG|OP_CHECKSIGVERIFY"
                = Ok (Re.Alt (Re.seq_of (lits "OP_CHECKSIG"))
                             (Re.seq_of (lits "OP_CHECKSIGVERIFY"))))
      by (vm_compute; reflexivity).
    rewrite (@pattern_occurs_compiled _ input_text _ C), contains_iff.
    split.
    - intros [pre [m [post [-> H]]]].
      assert (E : PyStr.lower m = "op_checksig"
                  \/ PyStr.lower m = "op_checksig" ++ "verify").
      { apply matches_alt_inv in H as [H1 | H1].
        - left. exact (proj1 (matches_lits "OP_CHECKSIG" m) H1).
        - right. exact (proj1 (matches_lits "OP_CHECKSIGVERIFY" m) H1). }
      rewrite !lower_app. destruct E as [-> | ->].
      + now exists (PyStr.lower pre), (PyStr.lower post).
      + exists (PyStr.lower pre), ("verify" ++ PyStr.lower post).
        now rewrite !str_app_assoc.
    - intros [pre [post E]].
      apply lower_app_inv in E as [x1 [rest [-> [E1 E]]]].
      apply lower_app_inv in E as [x2 [x3 [-> [E2 E3]]]].
      exists x1, x2, x3. split; [reflexivity |].
      apply Re.M_alt_l. exact (proj2 (matches_lits "OP_CHECKSIG" x2) E2). }
  assert (K2 : Re.pattern_occurs "OP_CHECKSIG" input_text Re.IGNORECASE
               <-> PyStr.contains "op_checksig" (PyStr.lower input_text) = true).
  { assert (C : Re.compile "OP_CHECKSIG" = Ok (Re.seq_of (lits "OP_CHECKSIG")))
      by (vm_compute; reflexivity).
    rewrite (@pattern_occurs_compiled _ input_text _ C), contains_iff.
    split.
    - intros [pre [m [post [-> H]]]].
      pose proof (proj1 (matches_lits "OP_CHECKSIG" m) H) as E.
      change (PyStr.lower "OP_CHECKSIG") with "op_checksig" in E.
      rewrite !lower_app, E.
      now exists (PyStr.lower pre), (PyStr.lower post).
    - intros [pre [post E]].
      apply lower_app_inv in E as [x1 [rest [-> [E1 E]]]].
      apply lower_app_inv in E as [x2 [x3 [-> [E2 E3]]]].
      exists x1, x2, x3. split; [reflexivity |].
      exact (proj2 (matches_lits "OP_CHECKSIG" x2) E2). }
  split; [rewrite K1, K2; reflexivity |].
  split; [exact (proj2 K1) | intros _; exact (proj1 K1)].
Qed.

Lemma tapscript_detected_iff_op_checksig_witness :
  loaded module_init
  /\ isascii "script: Op_CheckSigVerify" = true
  /\ exists r,
      validate_protocol "script: Op_CheckSigVerify" module_init = (Ok r, module_init)
      /\ PyStr.contains "op_checksig" (PyStr.lower "script: Op_CheckSigVerify") = true
      /\ In "BIP-342" (Report.standards_checked r)
      /\ Re.pattern_occurs "OP_CHECKSIG" "script: Op_CheckSigVerify" Re.IGNORECASE.
Proof.
  split; [reflexivity |]. split; [vm_compute; reflexivity |].
  destruct (tapscript_detected_iff_op_checksig "script: Op_CheckSigVerify"
              (w := module_init) eq_refl) as [r [E [H1 [H2 _]]]].
  assert (C : PyStr.contains "op_checksig"
                             (PyStr.lower "script: Op_CheckSigVerify") = true)
    by (vm_compute; reflexivity).
  exists r. split; [exact E |]. split; [exact C |].
  split; [exact (H2 C) | exact (proj1 H1 (H2 C))].
Defined.

(** Occurrence of a marker followed by one hexadecimal digit. *)
Lemma marker_one_hex_occurs (marker text : string) :
  (exists pre m post,
      text = pre ++ m ++ post
      /\ Re.matches true (Re.seq_of (lits marker ++ [Re.Atom hex_set])) m)
  <-> has_marker_and_hex (PyStr.lower marker) text.
Proof.
  unfold has_marker_and_hex. split.
  - intros [pre [m [post [-> H]]]].
    apply matches_lits_then in H as [m1 [m2 [-> [E H]]]].
    change (Re.seq_of [Re.Atom hex_set]) with (Re.Atom hex_set) in H.
    inversion H as [ | a ch Hc | | | | | | | | ]; subst.
    rewrite hex_set_accepts in Hc.
    exists (PyStr.lower pre), (PyStr.chr_lower ch), (PyStr.lower post).
    split; [| exact Hc].
    rewrite !lower_app, E. cbn [PyStr.lower]. rewrite !str_app_assoc.
    reflexivity.
  - intros [pre [digit [post [E Hd]]]].
    apply lower_app_inv in E as [x1 [rest [-> [E1 E]]]].
    apply lower_app_inv in E as [x2 [x3 [-> [E2 E3]]]].
    destruct x3 as [|ch x4]; simpl in E3; [discriminate |].
    injection E3 as Ec E4.
    exists x1, (x2 ++ String ch EmptyString), x4. split.
    + rewrite !str_app_assoc. reflexivity.
    + apply matches_lits_then. exists x2, (String ch EmptyString).
      repeat split; [exact E2 |].
      change (Re.seq_of [Re.Atom hex_set]) with (Re.Atom hex_set).
      constructor. rewrite hex_set_accepts, Ec. exact Hd.
Qed.

(** X10.  In the two PSBT patterns the repetition adds nothing: BIP-174
    is reported exactly when the input has a substring matching [psbt:]
    and one hexadecimal digit, BIP-370 exactly when it has one matching
    [psbt:v2:] and one hexadecimal digit, letter case ignored.  Each is
    reported whenever the lower-cased input contains the marker directly
    followed by a hexadecimal digit, and for an ASCII input only then. *)
Theorem psbt_detected_iff_marker_and_hex (input_text : string) (w : world) :
  loaded w ->
  exists r,
    validate_protocol input_text w = (Ok r, w)
    /\ (In "BIP-174" (Report.standards_checked r)
        <-> Re.pattern_occurs "psbt:[0-9a-f]" input_text Re.IGNORECASE)
    /\ (has_marker_and_hex "psbt:" input_text ->
        In "BIP-174" (Report.standards_checked r))
    /\ (isascii input_text = true ->
        In "BIP-174" (Report.standards_checked r) ->
        has_marker_and_hex "psbt:" input_text)
    /\ (In "BIP-370" (Report.standards_checked r)
        <-> Re.pattern_occurs "psbt:v2:[0-9a-f]" input_text Re.IGNORECASE)
    /\ (has_marker_and_hex "psbt:v2:" input_text ->
        In "BIP-370" (Report.standards_checked r))
    /\ (isascii input_text = true ->
        In "BIP-370" (Report.standards_checked r) ->
        has_marker_and_hex "psbt:v2:" input_text).
Proof.
  intros L. exists (expected_report input_text).
  split; [now apply validate_protocol_run |].
  assert (K174 : In "BIP-174" (Report.standards_checked (expected_report input_text))
                 <-> has_marker_and_hex "psbt:" input_text).
  { rewrite checked_iff.
    rewrite (@matches_standard_pattern
               "BIP-174" "psbt:[0-9a-f]+" input_text
               [("name", "PSBT");
                ("validation_regex", "psbt:[0-9a-f]+");
                ("description", "Partially Signed Bitcoin Transaction")]);
      [| unfold BIP_STANDARDS; right; right; left; reflexivity | reflexivity].
    assert (C : Re.compile "psbt:[0-9a-f]+"
                = Ok (Re.seq_of (lits "psbt:" ++ [Re.Plus (Re.Atom hex_set)])))
      by (vm_compute; reflexivity).
    rewrite (@pattern_occurs_compiled _ input_text _ C).
    exact (marker_hex_occurs "psbt:" input_text). }
  assert (K370 : In "BIP-370" (Report.standards_checked (expected_report input_text))
                 <-> has_marker_and_hex "psbt:v2:" input_text).
  { rewrite checked_iff.
    rewrite (@matches_standard_pattern
               "BIP-370" "psbt:v2:[0-9a-f]+" input_text
               [("name", "PSBT Version 2");
                ("validation_regex", "psbt:v2:[0-9a-f]+");
                ("description", "PSBT Version 2 format")]);
      [| unfold BIP_STANDARDS; right; right; right; left; reflexivity
       | reflexivity].
    assert (C : Re.compile "psbt:v2:[0-9a-f]+"
                = Ok (Re.seq_of (lits "psbt:v2:" ++ [Re.Plus (Re.Atom hex_set)])))
      by (vm_compute; reflexivity).
    rewrite (@pattern_occurs_compiled _ input_text _ C).
    exact (marker_hex_occurs "psbt:v2:" input_text). }
  assert (P174 : Re.pattern_occurs "psbt:[0-9a-f]" input_text Re.IGNORECASE
                 <-> has_marker_and_hex "psbt:" input_text).
  { assert (C : Re.compile "psbt:[0-9a-f]"
                = Ok (Re.seq_of (lits "psbt:" ++ [Re.Atom hex_set])))
      by (vm_compute; reflexivity).
    rewrite (@pattern_occurs_compiled _ input_text _ C).
    exact (marker_one_hex_occurs "psbt:" input_text). }
  assert (P370 : Re.pattern_occurs "psbt:v2:[0-9a-f]" input_text Re.IGNORECASE
                 <-> has_marker_and_hex "psbt:v2:" input_text).
  { assert (C : Re.compile "psbt:v2:[0-9a-f]"
                = Ok (Re.seq_of (lits "psbt:v2:" ++ [Re.Atom hex_set])))
      by (vm_compute; reflexivity).
    rewrite (@pattern_occurs_compiled _ input_text _ C).
    exact (marker_one_hex_occurs "psbt:v2:" input_text). }
  split; [rewrite K174, P174; reflexivity |].
  split; [exact (proj2 K174) |].
  split; [intros _; exact (proj1 K174) |].
  split; [rewrite K370, P370; reflexivity |].
  split; [exact (proj2 K370) | intros _; exact (proj1 K370)].
Qed.

Lemma psbt_detected_iff_marker_and_hex_witness :
  loaded module_init
  /\ isascii "PSBT:V2:0" = true
  /\ exists r,
      validate_protocol "PSBT:V2:0" module_init = (Ok r, module_init)
      /\ has_marker_and_hex "psbt:v2:" "PSBT:V2:0"
      /\ In "BIP-370" (Report.standards_checked r)
      /\ ~ has_marker_and_hex "psbt:" "PSBT:V2:0"
      /\ ~ In "BIP-174" (Report.standards_checked r).
Proof.
  assert (A : isascii "PSBT:V2:0" = true) by (vm_compute; reflexivity).
  split; [reflexivity |]. split; [exact A |].
  destruct (psbt_detected_iff_marker_and_hex "PSBT:V2:0"
              (w := module_init) eq_refl)
    as [r [E [_ [S174 [_ [_ [S370 _]]]]]]].
  assert (M : has_marker_and_hex "psbt:v2:" "PSBT:V2:0").
  { exists EmptyString, "0"%char, EmptyString. split; reflexivity. }
  assert (N : ~ In "BIP-174" (Report.standards_checked r)).
  { rewrite validate_protocol_run in E by reflexivity.
    assert (R : r = expected_report "PSBT:V2:0") by congruence.
    subst r. vm_compute. intros [F | []]. discriminate F. }
  exists r. split; [exact E |]. split; [exact M |].
  split; [exact (S370 M) |]. split; [| exact N].
  intros M174. exact (N (S174 M174)).
Defined.

(* ------------------------------------------------------------------------- *)
(** ** Other registries: extension and missing keys *)

Lemma for_each_app (input_text : string) (l1 l2 : registry) :
  forall results w,
    for_each input_text results (l1 ++ l2)%list w
    = bind (for_each input_text results l1)
           (fun results' => for_each input_text results' l2) w.
Proof.
  induction l1 as [|item l1 IH]; intros results w; simpl; [reflexivity |].
  unfold bind in *.
  destruct (loop_body input_text results item w) as [[results' | e] w'];
    [apply IH | reflexivity].
Qed.

Lemma loop_body_pure (input_text : string) (results : Report.t)
      (item : string * dict string) :
  exists o, forall w, loop_body input_text results item w = (o, w).
Proof.
  destruct item as [bip_id bip_info].
  unfold loop_body, bind, lift, ret.
  destruct (getitem bip_info "validation_regex") as [pattern | e];
    [| now eexists].
  destruct (Re.search pattern input_text Re.IGNORECASE) as [[start |] | e];
    [| now eexists | now eexists].
  destruct (getitem bip_info "name") as [name | e]; [| now eexists].
  destruct (getitem bip_info "description") as [description | e];
    now eexists.
Qed.

Lemma for_each_pure (input_text : string) (todo : registry) :
  forall results,
  exists o, forall w, for_each input_text results todo w = (o, w).
Proof.
  induction todo as [|item todo IH]; intros results; simpl.
  - now eexists.
  - unfold bind.
    destruct (loop_body_pure input_text results item) as [[results' | e] Hb].
    + destruct (IH results') as [o Ho]. exists o. intros w.
      now rewrite Hb, Ho.
    + exists (Raise e). intros w. now rewrite Hb.
Qed.

Lemma for_each_skip (input_text : string) (good rest : registry)
      (item : string * dict string) :
  (forall results w, loop_body input_text results item w = (Ok results, w)) ->
  forall results w,
    for_each input_text results (good ++ item :: rest)%list w
    = for_each input_text results (good ++ rest)%list w.
Proof.
  intros Skip. induction good as [|g good IH]; intros results w; simpl.
  - unfold bind. now rewrite Skip.
  - unfold bind.
    destruct (loop_body input_text results g w) as [[results' | e] w'];
      [apply IH | reflexivity].
Qed.

(** The outcome of the whole function is determined by the input and the
    registry; the world is handed back as it was received. *)
Lemma validate_protocol_pure (input_text : string) (reg : registry) :
  exists o,
    forall out, validate_protocol input_text (mkWorld reg out)
                = (o, mkWorld reg out).
Proof.
  unfold validate_protocol, bind, read_BIP_STANDARDS, items.
  cbn [g_BIP_STANDARDS].
  destruct (for_each_pure input_text reg
              (Report.mk true "2025-03-10T08:45:00Z" [] true [] None))
    as [[results | e] Ho].
  - destruct (Report.standards_checked results) as [|k ks] eqn:S.
    + eexists. intros out. rewrite Ho, S. reflexivity.
    + destruct (any_warning (Report.details results)) eqn:A;
        eexists; intros out; rewrite Ho, S, A; reflexivity.
  - exists (Raise e). intros out. now rewrite Ho.
Qed.

Lemma hits_item_occurs (input_text : string) (item : string * dict string) :
  well_formed item ->
  hits input_text item = true <-> item_occurs input_text item.
Proof.
  intros [pattern [name [description [r [Hp [_ [_ C]]]]]]].
  assert (F : field (snd item) "validation_regex" = pattern)
    by (unfold field; now rewrite Hp).
  pose proof (@hits_iff input_text item r) as H. rewrite F in H.
  rewrite (H C). unfold item_occurs. split.
  - intros Hocc. now exists pattern.
  - intros [pattern' [Hp' Hocc]]. rewrite Hp in Hp'. injection Hp' as <-.
    exact Hocc.
Qed.

(** X11.  The function works for any registry whose items are well formed
    (the three keys present, the pattern compiling), not only for the four
    built-in standards: it returns a report whose [standards_checked] holds
    exactly the ids of the items whose pattern occurs, in registry order,
    and [compliant] is true exactly when that list is not empty. *)
Theorem any_well_formed_registry (input_text : string) (w : world) :
  Forall well_formed (g_BIP_STANDARDS w) ->
  exists r,
    validate_protocol input_text w = (Ok r, w)
    /\ (forall bip_id,
          In bip_id (Report.standards_checked r)
          <-> exists bip_info,
                In (bip_id, bip_info) (g_BIP_STANDARDS w)
                /\ item_occurs input_text (bip_id, bip_info))
    /\ subsequence (Report.standards_checked r) (map fst (g_BIP_STANDARDS w))
    /\ (Report.compliant r = true <-> Report.standards_checked r <> []).
Proof.
  intros WF. unfold validate_protocol, bind, read_BIP_STANDARDS, items.
  rewrite (for_each_run input_text WF). unfold scanned.
  cbn [Report.standards_checked Report.details app].
  set (reg := g_BIP_STANDARDS w) in *.
  assert (Hin : forall bip_id,
             In bip_id (map fst (matched input_text reg))
             <-> exists bip_info,
                   In (bip_id, bip_info) reg
                   /\ item_occurs input_text (bip_id, bip_info)).
  { intros bip_id. rewrite in_map_iff. unfold matched. split.
    - intros [[k info] [E Hk]]. simpl in E. subst k.
      apply filter_In in Hk as [Hk Hh]. exists info. split; [exact Hk |].
      apply (hits_item_occurs input_text); [| exact Hh].
      exact (proj1 (Forall_forall _ _) WF _ Hk).
    - intros [info [Hk Ho]]. exists (bip_id, info). split; [reflexivity |].
      apply filter_In. split; [exact Hk |].
      apply (hits_item_occurs input_text); [| exact Ho].
      exact (proj1 (Forall_forall _ _) WF _ Hk). }
  pose proof (subsequence_matched input_text reg) as Hsub.
  destruct (map fst (matched input_text reg)) as [|k ks] eqn:E.
  - eexists. split; [reflexivity |].
    cbn [Report.standards_checked Report.compliant Report.append_detail
         Report.set_compliant].
    split; [exact Hin |]. split; [exact Hsub |]. split; congruence.
  - unfold ret. destruct (any_warning _); (eexists; split; [reflexivity |]);
      cbn [Report.standards_checked Report.compliant Report.set_warning];
      (split; [exact Hin |]); (split; [exact Hsub |]);
      split; congruence.
Qed.

Lemma any_well_formed_registry_witness :
  Forall well_formed (g_BIP_STANDARDS (mkWorld (BIP_STANDARDS ++ [bech32m_item])%list []))
  /\ exists r,
      validate_protocol "pay to BC1PXYZ via psbt:00"
                        (mkWorld (BIP_STANDARDS ++ [bech32m_item])%list [])
      = (Ok r, mkWorld (BIP_STANDARDS ++ [bech32m_item])%list [])
      /\ Report.standards_checked r = ["BIP-174"; "BIP-350"].
Proof.
  assert (WF : Forall well_formed
                 (g_BIP_STANDARDS (mkWorld (BIP_STANDARDS ++ [bech32m_item])%list []))).
  { cbn [g_BIP_STANDARDS].
    apply Forall_app. split; [exact BIP_STANDARDS_well_formed |].
    apply Forall_cons; [| apply Forall_nil].
    exists "bc1p[0-9a-z]+", "Bech32m", "Bech32m address format".
    eexists. do 3 (split; [reflexivity |]). vm_compute. reflexivity. }
  split; [exact WF |].
  destruct (@any_well_formed_registry "pay to BC1PXYZ via psbt:00"
              (mkWorld (BIP_STANDARDS ++ [bech32m_item])%list []) WF)
    as [r [E _]].
  exists r. split; [exact E |].
  assert (V : fst (validate_protocol "pay to BC1PXYZ via psbt:00"
                     (mkWorld (BIP_STANDARDS ++ [bech32m_item])%list []))
              = Ok r) by (rewrite E; reflexivity).
  vm_compute in V. injection V as V. subst r. reflexivity.
Defined.

(** X12.  A registry item without the key [validation_regex] makes the
    function raise [KeyError] for every input as soon as the loop reaches
    it: no report is returned, whatever the earlier items matched. *)
Theorem missing_pattern_key_raises
        (input_text : string) (w : world) (good rest : registry)
        (bip_id : string) (bip_info : dict string) :
  g_BIP_STANDARDS w = (good ++ (bip_id, bip_info) :: rest)%list ->
  Forall well_formed good ->
  dict_get bip_info "validation_regex" = None ->
  validate_protocol input_text w = (Raise (KeyError "validation_regex"), w).
Proof.
  intros G WF Hnone. unfold validate_protocol, bind, read_BIP_STANDARDS, items.
  rewrite G, for_each_app. unfold bind.
  rewrite (for_each_run input_text WF). simpl.
  unfold bind, lift, getitem. rewrite Hnone. reflexivity.
Qed.

Lemma missing_pattern_key_raises_witness :
  g_BIP_STANDARDS (mkWorld (BIP_STANDARDS ++ [patternless_item])%list [])
  = (BIP_STANDARDS ++ patternless_item :: [])%list
  /\ Forall well_formed BIP_STANDARDS
  /\ dict_get (snd patternless_item) "validation_regex" = None
  /\ validate_protocol "tr(KEY,{OTHER})"
                       (mkWorld (BIP_STANDARDS ++ [patternless_item])%list [])
     = (Raise (KeyError "validation_regex"),
        mkWorld (BIP_STANDARDS ++ [patternless_item])%list []).
Proof.
  split; [reflexivity |].
  split; [exact BIP_STANDARDS_well_formed |]. split; [reflexivity |].
  exact (@missing_pattern_key_raises
           "tr(KEY,{OTHER})" (mkWorld (BIP_STANDARDS ++ [patternless_item])%list [])
           BIP_STANDARDS [] "BIP-0" [("name", "Unfinished")]
           eq_refl BIP_STANDARDS_well_formed eq_refl).
Defined.

(** X13.  A missing [name] key is noticed only when the item's pattern
    occurs in the input.  If it does not occur the item is invisible: the
    result is the one obtained without the item.  If it occurs (and the
    items before it are well formed) the call raises [KeyError] for
    [name]. *)
Theorem missing_name_key_noticed_on_match
        (input_text pattern : string) (r : Re.regex) (w : world)
        (good rest : registry) (bip_id : string) (bip_info : dict string) :
  g_BIP_STANDARDS w = (good ++ (bip_id, bip_info) :: rest)%list ->
  dict_get bip_info "validation_regex" = Some pattern ->
  Re.compile pattern = Ok r ->
  dict_get bip_info "name" = None ->
  (~ Re.pattern_occurs pattern input_text Re.IGNORECASE ->
   fst (validate_protocol input_text w)
   = fst (validate_protocol input_text
                            (mkWorld (good ++ rest)%list (stdout w))))
  /\ (Forall well_formed good ->
      Re.pattern_occurs pattern input_text Re.IGNORECASE ->
      validate_protocol input_text w = (Raise (KeyError "name"), w)).
Proof.
  intros G Hp C Hn.
  assert (Body : forall results w0,
             loop_body input_text results (bip_id, bip_info) w0
             = match Re.search_from true r input_text 0 with
               | Some _ => (Raise (KeyError "name"), w0)
               | None => (Ok results, w0)
               end).
  { intros results w0. unfold loop_body, bind, lift, getitem, Re.search.
    rewrite Hp, C. cbn [Re.ignorecase].
    destruct (Re.search_from true r input_text 0); [| reflexivity].
    rewrite Hn. reflexivity. }
  split.
  - intros Hno.
    assert (S : Re.search_from true r input_text 0 = None).
    { apply search_from_none. intros pre m post E Hm. apply Hno.
      now exists r, pre, m, post. }
    assert (Skip : forall results w0,
               loop_body input_text results (bip_id, bip_info) w0
               = (Ok results, w0))
      by (intros results w0; now rewrite Body, S).
    unfold validate_protocol, bind, read_BIP_STANDARDS, items.
    cbn [g_BIP_STANDARDS]. rewrite G, (@for_each_skip input_text good rest _ Skip).
    destruct (for_each_pure input_text (good ++ rest)%list
                (Report.mk true "2025-03-10T08:45:00Z" [] true [] None))
      as [[results | e] Ho].
    + rewrite !Ho. destruct (Report.standards_checked results); [reflexivity |].
      destruct (any_warning (Report.details results)); reflexivity.
    + rewrite !Ho. reflexivity.
  - intros WF Hocc.
    assert (S : exists start, Re.search_from true r input_text 0 = Some start).
    { apply search_from_some. destruct Hocc as [r' [pre [m [post [C' [E Hm]]]]]].
      rewrite C in C'. injection C' as <-. now exists pre, m, post. }
    destruct S as [start S].
    unfold validate_protocol, bind, read_BIP_STANDARDS, items.
    rewrite G, for_each_app. unfold bind.
    rewrite (for_each_run input_text WF). cbn [for_each]. unfold bind.
    rewrite Body, S. reflexivity.
Qed.

Lemma bech32m_pattern_compiles :
  Re.compile "bc1p[0-9a-z]+"
  = Ok (Re.seq_of (lits "bc1p"
                   ++ [Re.Plus (Re.Atom (Re.ASet false [Re.CRange "0" "9";
                                                         Re.CRange "a" "z"]))])).
Proof. vm_compute. reflexivity. Qed.

Lemma missing_name_key_noticed_on_match_witness :
  g_BIP_STANDARDS (mkWorld (BIP_STANDARDS ++ [nameless_item])%list [])
  = (BIP_STANDARDS ++ nameless_item :: [])%list
  /\ ~ Re.pattern_occurs "bc1p[0-9a-z]+" "tr(KEY,{OTHER})" Re.IGNORECASE
  /\ fst (validate_protocol "tr(KEY,{OTHER})"
                            (mkWorld (BIP_STANDARDS ++ [nameless_item])%list []))
     = fst (validate_protocol "tr(KEY,{OTHER})" module_init)
  /\ Re.pattern_occurs "bc1p[0-9a-z]+" "send to bc1pqq" Re.IGNORECASE
  /\ validate_protocol "send to bc1pqq"
                       (mkWorld (BIP_STANDARDS ++ [nameless_item])%list [])
     = (Raise (KeyError "name"), mkWorld (BIP_STANDARDS ++ [nameless_item])%list []).
Proof.
  pose proof bech32m_pattern_compiles as C.
  assert (N : ~ Re.pattern_occurs "bc1p[0-9a-z]+" "tr(KEY,{OTHER})" Re.IGNORECASE).
  { intros [r' [pre [m [post [C' [E Hm]]]]]].
    rewrite C in C'. injection C' as <-.
    refine (proj1 (search_from_none true _ "tr(KEY,{OTHER})" 0) _ pre m post E Hm).
    vm_compute. reflexivity. }
  assert (P : Re.pattern_occurs "bc1p[0-9a-z]+" "send to bc1pqq" Re.IGNORECASE).
  { apply (proj2 (@pattern_occurs_compiled _ "send to bc1pqq" _ C)).
    apply (proj1 (search_from_some true _ "send to bc1pqq" 0)).
    eexists. vm_compute. reflexivity. }
  destruct (@missing_name_key_noticed_on_match
              "tr(KEY,{OTHER})" "bc1p[0-9a-z]+" _
              (mkWorld (BIP_STANDARDS ++ [nameless_item])%list [])
              BIP_STANDARDS [] "BIP-350" [("validation_regex", "bc1p[0-9a-z]+")]
              eq_refl eq_refl C eq_refl) as [H1 _].
  destruct (@missing_name_key_noticed_on_match
              "send to bc1pqq" "bc1p[0-9a-z]+" _
              (mkWorld (BIP_STANDARDS ++ [nameless_item])%list [])
              BIP_STANDARDS [] "BIP-350" [("validation_regex", "bc1p[0-9a-z]+")]
              eq_refl eq_refl C eq_refl) as [_ H2].
  split; [reflexivity |]. split; [exact N |].
  split; [rewrite (H1 N); cbn [stdout]; rewrite app_nil_r; reflexivity |].
  split; [exact P | exact (H2 BIP_STANDARDS_well_formed P)].
Defined.

(* ------------------------------------------------------------------------- *)
(** ** Effects: the world, the exit status, the caller *)

(** X14.  [validate_protocol] has no side effect, for any registry and
    also when it raises: it prints nothing and leaves the registry as it
    is, and its outcome depends on the input and the registry only. *)
Theorem validate_protocol_no_side_effect (input_text : string) (w1 w2 : world) :
  g_BIP_STANDARDS w1 = g_BIP_STANDARDS w2 ->
  snd (validate_protocol input_text w1) = w1
  /\ fst (validate_protocol input_text w1) = fst (validate_protocol input_text w2).
Proof.
  destruct w1 as [reg out1], w2 as [reg2 out2]. cbn [g_BIP_STANDARDS].
  intros <-. destruct (validate_protocol_pure input_text reg) as [o Ho].
  rewrite !Ho. split; reflexivity.
Qed.

Lemma validate_protocol_no_side_effect_witness :
  g_BIP_STANDARDS (mkWorld [patternless_item] ["earlier output"])
  = g_BIP_STANDARDS (mkWorld [patternless_item] [])
  /\ snd (validate_protocol "psbt:00" (mkWorld [patternless_item] ["earlier output"]))
     = mkWorld [patternless_item] ["earlier output"]
  /\ fst (validate_protocol "psbt:00" (mkWorld [patternless_item] ["earlier output"]))
     = fst (validate_protocol "psbt:00" (mkWorld [patternless_item] [])).
Proof.
  split; [reflexivity |].
  exact (@validate_protocol_no_side_effect "psbt:00"
           (mkWorld [patternless_item] ["earlier output"])
           (mkWorld [patternless_item] []) eq_refl).
Defined.

(** X15.  What exit status 0 of [main] means.  It is reached in two ways
    only: the argument parser itself ended the run with status 0 (nothing
    was validated), or the arguments were accepted, the report was printed
    and it is compliant.  In every case the registry is left as it was. *)
Theorem exit_zero_means_compliant_or_parser_exit
        (parse_args : list string -> outcome string)
        (json_dumps : Report.t -> string)
        (argv : list string) (w : world) :
  loaded w ->
  (exit_status parse_args json_dumps argv w = 0
   <-> parse_args argv = Raise (SystemExit 0)
       \/ exists input r,
            parse_args argv = Ok input
            /\ validate_protocol input w = (Ok r, w)
            /\ Report.compliant r = true
            /\ snd (main parse_args json_dumps argv w)
               = mkWorld (g_BIP_STANDARDS w) (stdout w ++ [json_dumps r])%list)
  /\ loaded (snd (main parse_args json_dumps argv w)).
Proof.
  intros L. unfold exit_status, main, bind, lift, print, raise, ret.
  destruct (parse_args argv) as [input | e] eqn:P.
  - rewrite (validate_protocol_run input L).
    destruct (Report.compliant (expected_report input)) eqn:Cm; cbn [negb fst snd].
    + split; [| exact L].
      split; [intros _ | reflexivity]. right.
      exists input, (expected_report input).
      split; [reflexivity |]. split; [exact (validate_protocol_run input L) |].
      split; [exact Cm | reflexivity].
    + split; [| exact L].
      split; [discriminate |].
      intros [F | [input' [r [P' [V [Cr _]]]]]]; [discriminate F |].
      injection P' as <-. rewrite (validate_protocol_run input L) in V. congruence.
  - cbn [fst snd]. split; [| exact L].
    split.
    + intros H. left. destruct e as [k | p | p | code]; try discriminate H.
      now subst code.
    + intros [[= ->] | [input [r [F _]]]]; [reflexivity | discriminate F].
Qed.

Lemma exit_zero_means_compliant_or_parser_exit_witness :
  loaded module_init
  /\ exit_status parse_input_option render_checked ["--input"; "OP_CHECKSIG"]
                 module_init = 0
  /\ exists input r,
      parse_input_option ["--input"; "OP_CHECKSIG"] = Ok input
      /\ validate_protocol input module_init = (Ok r, module_init)
      /\ Report.compliant r = true.
Proof.
  split; [reflexivity |].
  assert (Z0 : exit_status parse_input_option render_checked
                           ["--input"; "OP_CHECKSIG"] module_init = 0)
    by (vm_compute; reflexivity).
  split; [exact Z0 |].
  destruct (@exit_zero_means_compliant_or_parser_exit
              parse_input_option render_checked ["--input"; "OP_CHECKSIG"]
              module_init eq_refl) as [H _].
  destruct (proj1 H Z0) as [F | [input [r [P [V [Cm _]]]]]].
  - discriminate F.
  - exists input, r. repeat split; assumption.
Defined.

(** X16.  [run_command] applied to the validator.  When the arguments are
    accepted, the caller receives the printed report exactly when the
    report is compliant.  For a non-compliant report the child exits with
    status 1, [check=True] turns that into [CalledProcessError], and
    [run_command] prints two lines and returns [None]: the caller never
    sees a report whose [compliant] is false. *)
Theorem run_command_returns_only_compliant_reports
        (parse_args : list string -> outcome string)
        (json_dumps : Report.t -> string)
        (stderr_of : outcome unit -> string)
        (subprocess_run : list string -> Process.t)
        (str_of_error : list string -> Z -> string)
        (test_case : string) (w : world) :
  parse_args ["--input"; test_case] = Ok test_case ->
  subprocess_run ["python"; "scripts/validate_bitcoin_protocol.py";
                  "--input"; test_case]
  = validator_process parse_args json_dumps stderr_of ["--input"; test_case] ->
  exists r,
    validate_protocol test_case module_init = (Ok r, module_init)
    /\ (Report.compliant r = true ->
        run_command subprocess_run str_of_error
                    ["python"; "scripts/validate_bitcoin_protocol.py";
                     "--input"; test_case] w
        = (Ok (Some (json_dumps r ++ line_feed)), w))
    /\ (Report.compliant r = false ->
        exists line1 line2,
          run_command subprocess_run str_of_error
                      ["python"; "scripts/validate_bitcoin_protocol.py";
                       "--input"; test_case] w
          = (Ok None,
             mkWorld (g_BIP_STANDARDS w) (stdout w ++ [line1; line2])%list)).
Proof.
  intros P R. exists (expected_report test_case).
  assert (L : loaded module_init) by reflexivity.
  split; [exact (validate_protocol_run test_case L) |].
  unfold run_command. rewrite R. unfold validator_process.
  unfold exit_status, main, bind, lift, print, raise, ret.
  rewrite P, (validate_protocol_run test_case L).
  split; intros Cm; rewrite Cm; cbn [negb fst snd Process.returncode
                                     Process.stdout Process.stderr
                                     BinInt.Z.of_nat BinInt.Z.eqb
                                     g_BIP_STANDARDS stdout].
  - unfold printed, module_init. cbn [stdout app map String.concat].
    reflexivity.
  - do 2 eexists. cbn [Pos.of_succ_nat BinInt.Z.eqb]. rewrite <- app_assoc.
    reflexivity.
Qed.

Lemma run_command_returns_only_compliant_reports_witness :
  parse_input_option ["--input"; "no markers here"] = Ok "no markers here"
  /\ validator_only ["python"; "scripts/validate_bitcoin_protocol.py";
                     "--input"; "no markers here"]
     = validator_process parse_input_option render_checked
                         (fun _ => EmptyString) ["--input"; "no markers here"]
  /\ exists r line1 line2,
      validate_protocol "no markers here" module_init = (Ok r, module_init)
      /\ Report.compliant r = false
      /\ run_command validator_only plain_error_text
                     ["python"; "scripts/validate_bitcoin_protocol.py";
                      "--input"; "no markers here"] module_init
         = (Ok None, mkWorld BIP_STANDARDS [line1; line2]).
Proof.
  split; [reflexivity |]. split; [reflexivity |].
  destruct (@run_command_returns_only_compliant_reports
              parse_input_option render_checked (fun _ => EmptyString)
              validator_only plain_error_text "no markers here" module_init
              eq_refl eq_refl) as [r [V [_ H]]].
  assert (Cm : Report.compliant r = false).
  { pose proof V as V'. rewrite validate_protocol_run in V' by reflexivity.
    assert (R : r = expected_report "no markers here") by congruence.
    subst r. vm_compute. reflexivity. }
  destruct (H Cm) as [line1 [line2 Hrun]].
  exists r, line1, line2. split; [exact V |]. split; [exact Cm | exact Hrun].
Defined.

(* ------------------------------------------------------------------------- *)
(** ** The header line of the test script *)

Lemma str_repeat_length (c : ascii) (n : nat) :
  String.length (str_repeat (String c EmptyString) n) = n.
Proof. induction n as [|n IH]; simpl; [reflexivity | now rewrite IH]. Qed.

(** X17.  [print_header] prints three lines.  The middle one is the text
    between two blanks, padded with [=] to 80 characters with the odd
    padding character on the right; a text longer than 78 characters is not
    padded at all, so the line is then wider than the two rules. *)
Theorem print_header_centres_or_overflows (text : string) (w : world) :
  exists rule_above line rule_below left right,
    print_header text w
    = (Ok tt, mkWorld (g_BIP_STANDARDS w)
                      (stdout w ++ [rule_above; line; rule_below])%list)
    /\ line = str_repeat "=" left ++ (" " ++ text ++ " ") ++ str_repeat "=" right
    /\ String.length line = Nat.max 80 (String.length text + 2)
    /\ (right = left \/ right = S left)
    /\ (78 < String.length text -> left = 0 /\ right = 0).
Proof.
  unfold print_header, bind, print. cbn [g_BIP_STANDARDS stdout].
  rewrite <- !app_assoc. cbn [app].
  set (body := " " ++ text ++ " ").
  assert (B : String.length body = String.length text + 2).
  { unfold body. rewrite !str_length_app. simpl. lia. }
  unfold center. destruct (Nat.leb 80 (String.length body)) eqn:Wide.
  - apply Nat.leb_le in Wide.
    exists (line_feed ++ str_repeat "=" 80), body,
           (str_repeat "=" 80 ++ line_feed), 0, 0.
    split; [reflexivity |]. split.
    + simpl. now rewrite str_app_empty_r.
    + split; [lia |]. split; [now left | auto].
  - apply Nat.leb_gt in Wide.
    set (marg := 80 - String.length body).
    change (Nat.odd 80) with false. rewrite andb_false_r, Nat.add_0_r.
    exists (line_feed ++ str_repeat "=" 80),
           (str_repeat "=" (marg / 2) ++ body ++ str_repeat "=" (marg - marg / 2)),
           (str_repeat "=" 80 ++ line_feed), (marg / 2), (marg - marg / 2).
    split; [reflexivity |]. split; [reflexivity |].
    pose proof (Nat.div_mod_eq marg 2) as D.
    pose proof (Nat.mod_upper_bound marg 2 ltac:(discriminate)) as U.
    split; [| split].
    + rewrite !str_length_app, !str_repeat_length. lia.
    + lia.
    + intros Long. lia.
Qed.

(* ------------------------------------------------------------------------- *)
(** ** Version texts and directory names in the security check *)

Lemma ltb_first_char_above (c d : ascii) (rest tail : string) :
  (N_of_ascii d < N_of_ascii c)%N ->
  String.ltb (String c rest) (String d tail) = false.
Proof.
  intros H. unfold String.ltb. simpl. unfold Ascii.compare.
  apply N.compare_gt_iff in H. now rewrite H.
Qed.

Lemma ltb_same_head (c : ascii) (a b : string) :
  String.ltb (String c a) (String c b) = String.ltb a b.
Proof.
  unfold String.ltb. simpl. unfold Ascii.compare.
  now rewrite N.compare_refl.
Qed.

(** X18.  The status of a package is decided by comparing version texts
    character by character, not number by number.  For [cryptography],
    every version text whose first character is above [4] is reported [OK]
    (so are the old releases 5.x to 9.x), while every text starting with
    [44.0.1] is reported vulnerable (so are 44.0.10 to 44.0.19, which are
    newer than 44.0.2).  For [pycryptodome], every text [3.d...] with [d]
    above [2] is reported [OK] (so are the old releases 3.3 to 3.9).
    Packages other than these two are always [OK]. *)
Theorem dependency_status_compares_text (major : ascii) (rest package : string) :
  ((N_of_ascii "4" < N_of_ascii major)%N ->
   dependency_status "cryptography" (String major rest) = "OK")
  /\ dependency_status "cryptography" ("44.0.1" ++ rest)
     = "VULNERABLE - Update to 44.0.2 or later"
  /\ ((N_of_ascii "2" < N_of_ascii major)%N ->
      dependency_status "pycryptodome" ("3." ++ String major rest) = "OK")
  /\ (package <> "cryptography" -> package <> "pycryptodome" ->
      dependency_status package rest = "OK").
Proof.
  split; [| split; [| split]].
  - intros H. unfold dependency_status.
    rewrite (@ltb_first_char_above major "4"%char rest "4.0.2" H). reflexivity.
  - reflexivity.
  - intros H. unfold dependency_status.
    cbn [String.eqb Ascii.eqb Bool.eqb andb].
    assert (L : String.ltb ("3." ++ String major rest) "3.21.1" = false).
    { change ("3." ++ String major rest)
        with (String "3" (String "." (String major rest))).
      change "3.21.1" with (String "3" (String "." "21.1")).
      rewrite !ltb_same_head.
      exact (@ltb_first_char_above major "2"%char rest "1.1" H). }
    rewrite L. reflexivity.
  - intros N1 N2. unfold dependency_status.
    destruct (String.eqb_spec package "cryptography") as [E | _]; [contradiction |].
    destruct (String.eqb_spec package "pycryptodome") as [E | _]; [contradiction |].
    reflexivity.
Qed.

Lemma dependency_status_compares_text_witness :
  (N_of_ascii "4" < N_of_ascii "9")%N
  /\ dependency_status "cryptography" "9.0.0" = "OK"
  /\ dependency_status "cryptography" "44.0.10"
     = "VULNERABLE - Update to 44.0.2 or later"
  /\ (N_of_ascii "2" < N_of_ascii "9")%N
  /\ dependency_status "pycryptodome" "3.9.0" = "OK".
Proof.
  assert (H4 : (N_of_ascii "4" < N_of_ascii "9")%N) by (vm_compute; reflexivity).
  assert (H2 : (N_of_ascii "2" < N_of_ascii "9")%N) by (vm_compute; reflexivity).
  destruct (dependency_status_compares_text "9" ".0.0" "bitcoin")
    as [A [_ [C _]]].
  destruct (dependency_status_compares_text "9" "0" "bitcoin")
    as [_ [B _]].
  split; [exact H4 |]. split; [exact (A H4) |]. split; [exact B |].
  split; [exact H2 | exact (C H2)].
Defined.

(** X19.  The directory filter of the two walks tests substrings of the
    whole path.  A directory is left out exactly when its path contains
    [env], [node_modules], [.git] or [test] anywhere (the entries [venv]
    and [.venv] add nothing); so every path with [test] or [env] inside a
    longer name, such as [./latest] or [./environment], is left out too. *)
Theorem skipped_iff_marker_anywhere (root : string) :
  (skipped root = true
   <-> PyStr.occurs "env" root \/ PyStr.occurs "node_modules" root
       \/ PyStr.occurs ".git" root \/ PyStr.occurs "test" root)
  /\ (forall pre post, root = pre ++ "test" ++ post -> skipped root = true)
  /\ (forall pre post, root = pre ++ "env" ++ post -> skipped root = true).
Proof.
  assert (V : forall marker, PyStr.occurs (marker ++ "env") root ->
                             PyStr.occurs "env" root).
  { intros marker [pre [post ->]]. exists (pre ++ marker), post.
    now rewrite !str_app_assoc. }
  assert (I : skipped root = true
              <-> PyStr.occurs "env" root \/ PyStr.occurs "node_modules" root
                  \/ PyStr.occurs ".git" root \/ PyStr.occurs "test" root).
  { unfold skipped. cbn [existsb]. rewrite !orb_true_iff, !contains_iff.
    split.
    - intros [H | [H | [H | [H | [H | [H | H]]]]]]; try discriminate H; auto.
      + left. exact (V "v" H).
      + left. exact (V ".v" H).
    - intros [H | [H | [H | H]]]; auto 10. }
  split; [exact I |]. split.
  - intros pre post ->. apply I. right. right. right. now exists pre, post.
  - intros pre post ->. apply I. left. now exists pre, post.
Qed.

Lemma skipped_iff_marker_anywhere_witness :
  "./src/latest" = "./src/la" ++ "test" ++ EmptyString
  /\ skipped "./src/latest" = true
  /\ skipped "./environment" = true
  /\ skipped "./src/main" = false.
Proof.
  destruct (skipped_iff_marker_anywhere "./src/latest") as [_ [H _]].
  split; [reflexivity |]. split; [exact (H "./src/la" EmptyString eq_refl) |].
  split; vm_compute; reflexivity.
Defined.
